(** * Warehouse order fulfilment: a shallow embedding of
      [src/warehouse/warehouse.route.ts]

    The route helpers [placeBooksOnShelf], [placeOrder] and [fulfilOrder]
    are embedded as computations over an explicit store.  JavaScript
    [number]s that count books are integers [Z], the sum written by
    [placeBooksOnShelf] being rounded to the nearest double;
    [Record<K, number>] objects are finite maps keyed by strings, the
    maps holding the own properties, with what an object literal
    inherits from [Object.prototype] kept beside them; a thrown [Error]
    is an outcome carrying the store as it was when the exception left
    the function. *)

From stdpp Require Import gmap strings list fin_maps infinite pretty.

Local Open Scope Z_scope.

(** ** Data model *)

Abbreviation BookID := string (only parsing).
Abbreviation ShelfId := string (only parsing).
Abbreviation OrderId := string (only parsing).

(** [Record<BookID, number>] *)
Abbreviation BookCounts := (gmap string Z) (only parsing).

(** [interface FulfilBookItem] *)
Record FulfilBookItem := {
  book : BookID;
  shelf : ShelfId;
  numberOfBooks : Z
}.

(** The five [throw new Error(...)] sites of the helpers, named as the
    specification names them. *)
Inductive Error :=
  | ValidationError
  | OrderNotFound
  | UnknownBookInOrder
  | QuantityMismatch
  | InsufficientStock.

Definition message (e : Error) : string :=
  match e with
  | ValidationError => "Can't place less than 0 books on a shelf"
  | OrderNotFound => "no such order"
  | UnknownBookInOrder => "one of the books is not in the order"
  | QuantityMismatch => "incorrect number of books"
  | InsufficientStock => "not enough copies on given shelves"
  end.

(** Calls made on the [data: WarehouseData] object, recorded in the order
    in which they are issued. *)
Inductive StoreCall :=
  | CallGetCopiesOnShelf (b : BookID) (s : ShelfId)
  | CallPlaceBookOnShelf (b : BookID) (s : ShelfId) (n : Z)
  | CallGetOrder (o : OrderId)
  | CallRemoveOrder (o : OrderId)
  | CallPlaceOrder (books : BookCounts).

Definition mutating (c : StoreCall) : bool :=
  match c with
  | CallGetCopiesOnShelf _ _ | CallGetOrder _ => false
  | CallPlaceBookOnShelf _ _ _ | CallRemoveOrder _ | CallPlaceOrder _ => true
  end.

(** The state behind [data]: one counter per (book, shelf), one record per
    order, and the log of calls received. *)
Record WarehouseData := {
  stock : gmap (string * string) Z;
  orders : gmap string (gmap string Z);
  calls : list StoreCall
}.

(** ** Promises: state passing with exceptions *)

Inductive Outcome (A : Type) :=
  | Resolved (a : A)
  | Rejected (e : Error).
Arguments Resolved {A} a.
Arguments Rejected {A} e.

Definition Promise (A : Type) : Type :=
  WarehouseData -> WarehouseData * Outcome A.

Definition ret {A} (a : A) : Promise A := fun w => (w, Resolved a).

Definition throw {A} (e : Error) : Promise A := fun w => (w, Rejected e).

Definition bind {A B} (p : Promise A) (k : A -> Promise B) : Promise B :=
  fun w =>
    match p w with
    | (w1, Resolved a) => k a w1
    | (w1, Rejected e) => (w1, Rejected e)
    end.

Definition lift {A} (o : Outcome A) : Promise A := fun w => (w, o).

Notation "'await' x <- p ;; k" := (bind p (fun x => k))
  (at level 10, x name, p at level 99, k at level 200, only parsing).

(** [Promise.all(xs.map(async ...))]: every callback is started, in list
    order, so each one's store call is issued whether or not an earlier
    one is rejected; the result is the list of values, or the first
    rejection. *)
Fixpoint promiseAll {A} (ps : list (Promise A)) : Promise (list A) :=
  match ps with
  | [] => ret []
  | p :: rest => fun w =>
      let '(w1, r) := p w in
      let '(w2, rs) := promiseAll rest w1 in
      (w2, match r, rs with
           | Resolved a, Resolved l => Resolved (a :: l)
           | Rejected e, _ => Rejected e
           | Resolved _, Rejected e => Rejected e
           end)
  end.

(** ** The store *)

Module Data.

(** Appends a call to the log of the store. *)
Definition record (c : StoreCall) (w : WarehouseData) : WarehouseData :=
  {| stock := stock w; orders := orders w; calls := calls w ++ [c] |}.

(** Modelled from the spec: [getCopiesOnShelf] of the [WarehouseData]
    interface ([./warehouse_data]); returns 0 if no record exists. *)
Definition getCopiesOnShelf (b : BookID) (s : ShelfId) : Promise Z :=
  fun w => (record (CallGetCopiesOnShelf b s) w,
            Resolved (default 0 (stock w !! (b, s)))).

(** Modelled from the spec: [placeBookOnShelf] of the [WarehouseData]
    interface; sets the absolute count for book+shelf, performs no
    arithmetic, and fails with [ValidationError] on a negative count. *)
Definition placeBookOnShelf (b : BookID) (s : ShelfId) (newCount : Z)
  : Promise unit :=
  fun w =>
    let w1 := record (CallPlaceBookOnShelf b s newCount) w in
    if newCount <? 0 then (w1, Rejected ValidationError)
    else ({| stock := <[(b, s) := newCount]> (stock w1);
             orders := orders w1; calls := calls w1 |}, Resolved tt).

(** Modelled from the spec: [getOrder] of the [WarehouseData] interface;
    point lookup by key, [false] (here [None]) when there is no order. *)
Definition getOrder (o : OrderId) : Promise (option BookCounts) :=
  fun w => (record (CallGetOrder o) w, Resolved (orders w !! o)).

(** Modelled from the spec: [removeOrder] of the [WarehouseData]
    interface; deletion by key. *)
Definition removeOrder (o : OrderId) : Promise unit :=
  fun w =>
    let w1 := record (CallRemoveOrder o) w in
    ({| stock := stock w1; orders := delete o (orders w1);
        calls := calls w1 |}, Resolved tt).

(** Modelled from the spec: [placeOrder] of the [WarehouseData]
    interface; generates a fresh unique order identifier, stores the
    (orderId, tally) pair and returns the identifier. *)
Definition placeOrder (books : BookCounts) : Promise OrderId :=
  fun w =>
    let w1 := record (CallPlaceOrder books) w in
    let orderId := fresh (dom (orders w1)) in
    ({| stock := stock w1; orders := <[orderId := books]> (orders w1);
        calls := calls w1 |}, Resolved orderId).

End Data.

(** ** Objects and numbers of the source language *)

(** The property names an object literal inherits from
    [Object.prototype]. *)
Definition objectPrototypeNames : list string :=
  ["constructor"; "__defineGetter__"; "__defineSetter__";
   "hasOwnProperty"; "__lookupGetter__"; "__lookupSetter__";
   "isPrototypeOf"; "propertyIsEnumerable"; "toString"; "valueOf";
   "__proto__"; "toLocaleString"].

Definition inherited (k : string) : bool :=
  bool_decide (k ∈ objectPrototypeNames).

(** An identifier that names nothing on [Object.prototype]: for such a
    key, [k in obj] and [obj[k]] look at the own properties only. *)
Definition ordinary (k : string) : Prop := inherited k = false.

(** [k in obj]: an own property or an inherited one. *)
Definition hasProperty (obj : BookCounts) (k : string) : bool :=
  bool_decide (is_Some (obj !! k)) || inherited k.

(** The double nearest to an integer, ties to the even significand:
    integers up to 2^53 in magnitude are doubles, beyond them a double
    is a multiple of a power of two with a 53-bit significand. *)
Definition roundToDouble (z : Z) : Z :=
  let a := Z.abs z in
  if a <=? 2 ^ 53 then z
  else
    let e := Z.log2 a - 52 in
    let q := a / 2 ^ e in
    let r := a mod 2 ^ e in
    let half := 2 ^ (e - 1) in
    let q' := if (half <? r) || ((r =? half) && Z.odd q) then q + 1
              else q in
    Z.sgn z * (q' * 2 ^ e).

(** [x + y] on two integer-valued doubles. *)
Definition jsAdd (x y : Z) : Z := roundToDouble (x + y).

(** ** The route helpers *)

(** [getCopiesOnShelf] already answers 0 for a missing record, so the
    [?? 0] of the source is the identity on its result. *)
Definition placeBooksOnShelf (bookId : BookID) (numberOfBooks : Z)
  (shelf : ShelfId) : Promise unit :=
  if numberOfBooks <? 0 then throw ValidationError
  else
    await current <- Data.getCopiesOnShelf bookId shelf ;;
    Data.placeBookOnShelf bookId shelf (jsAdd current numberOfBooks).

(** The loop of [placeOrder]: [order[book] = 1 + (order[book] ?? 0)] on
    an object literal.  Assigning to ["__proto__"] stores nothing.  For
    the other names of [Object.prototype] the source reads the inherited
    member and stores a string; an order is a map to numbers here, which
    is the source's object for [ordinary] books. *)
Definition tally (books : list BookID) : BookCounts :=
  foldl (fun order book =>
           if decide (book = "__proto__") then order
           else <[book := 1 + default 0 (order !! book)]> order)
        ∅ books.

Definition placeOrder (books : list BookID) : Promise OrderId :=
  Data.placeOrder (tally books).

(** First loop of [fulfilOrder]: [book in order], which an inherited
    name passes too, and the running sums
    [removedCount[book] = numberOfBooks + (removedCount[book] ?? 0)].
    For a name of [Object.prototype] the source stores a string (nothing
    for ["__proto__"]) where a number is kept here; the second loop looks
    up the keys of the order only, so this is the source's loop on every
    order whose own keys are [ordinary]. *)
Fixpoint countRemoved (order removedCount : BookCounts)
  (booksFulfilled : list FulfilBookItem) : Outcome BookCounts :=
  match booksFulfilled with
  | [] => Resolved removedCount
  | item :: rest =>
      if hasProperty order (book item) then
        countRemoved order
          (<[book item :=
               numberOfBooks item + default 0 (removedCount !! book item)]>
             removedCount)
          rest
      else Rejected UnknownBookInOrder
  end.

(** Second loop of [fulfilOrder], over [Object.keys(order)]: a book with
    no entry in [removedCount] differs from every required quantity. *)
Definition checkCounts (order removedCount : BookCounts) : Outcome unit :=
  if forallb (fun '(b, q) => bool_decide (removedCount !! b = Some q))
             (map_to_list order)
  then Resolved tt
  else Rejected QuantityMismatch.

(** The callback of the first [Promise.all] of [fulfilOrder]. *)
Definition processLine (item : FulfilBookItem) : Promise FulfilBookItem :=
  await currentCopiesOnShelf <-
    Data.getCopiesOnShelf (book item) (shelf item) ;;
  let newCopiesOnShelf := currentCopiesOnShelf - numberOfBooks item in
  if newCopiesOnShelf <? 0 then throw InsufficientStock
  else ret {| book := book item; shelf := shelf item;
              numberOfBooks := newCopiesOnShelf |}.

(** The callback of the second [Promise.all] of [fulfilOrder]. *)
Definition commitLine (item : FulfilBookItem) : Promise unit :=
  Data.placeBookOnShelf (book item) (shelf item) (numberOfBooks item).

Definition fulfilOrder (orderId : OrderId)
  (booksFulfilled : list FulfilBookItem) : Promise unit :=
  await order <- Data.getOrder orderId ;;
  match order with
  | None => throw OrderNotFound
  | Some order =>
      await removedCount <- lift (countRemoved order ∅ booksFulfilled) ;;
      await _ <- lift (checkCounts order removedCount) ;;
      await processedFulfilment <-
        promiseAll (map processLine booksFulfilled) ;;
      await _ <- Data.removeOrder orderId ;;
      await _ <- promiseAll (map commitLine processedFulfilment) ;;
      ret tt
  end.

(** ** Direct descriptions of the phases of [fulfilOrder] *)

Definition copiesOnShelf (st : gmap (string * string) Z)
  (b : BookID) (s : ShelfId) : Z :=
  default 0 (st !! (b, s)).

(** One step of the running sums of the first loop. *)
Definition addRemoved (removedCount : BookCounts) (item : FulfilBookItem)
  : BookCounts :=
  <[book item := numberOfBooks item + default 0 (removedCount !! book item)]>
    removedCount.

Definition removedCounts (lines : list FulfilBookItem) : BookCounts :=
  foldl addRemoved ∅ lines.

(** Every line passes [book in order]. *)
Definition knownBooks (order : BookCounts) (lines : list FulfilBookItem)
  : bool :=
  forallb (fun l => hasProperty order (book l)) lines.

(** The running sums agree with the order on every key of the order. *)
Definition exactCounts (order : BookCounts) (lines : list FulfilBookItem)
  : bool :=
  forallb (fun '(b, q) => bool_decide (removedCounts lines !! b = Some q))
          (map_to_list order).

(** No line asks for more copies than its shelf holds. *)
Definition inStock (st : gmap (string * string) Z)
  (lines : list FulfilBookItem) : bool :=
  forallb (fun l => numberOfBooks l <=? copiesOnShelf st (book l) (shelf l))
          lines.

(** The value [processLine] computes for a line, read against [st]. *)
Definition processed (st : gmap (string * string) Z) (l : FulfilBookItem)
  : FulfilBookItem :=
  {| book := book l; shelf := shelf l;
     numberOfBooks := copiesOnShelf st (book l) (shelf l) - numberOfBooks l |}.

Definition readCall (l : FulfilBookItem) : StoreCall :=
  CallGetCopiesOnShelf (book l) (shelf l).

Definition writeCall (l : FulfilBookItem) : StoreCall :=
  CallPlaceBookOnShelf (book l) (shelf l) (numberOfBooks l).

Definition writeLine (st : gmap (string * string) Z) (l : FulfilBookItem)
  : gmap (string * string) Z :=
  <[(book l, shelf l) := numberOfBooks l]> st.

Definition appendCalls (cs : list StoreCall) (w : WarehouseData)
  : WarehouseData :=
  {| stock := stock w; orders := orders w; calls := calls w ++ cs |}.

(** The store after a successful [fulfilOrder]. *)
Definition committed (orderId : OrderId) (lines : list FulfilBookItem)
  (w : WarehouseData) : WarehouseData :=
  {| stock := foldl writeLine (stock w) (map (processed (stock w)) lines);
     orders := delete orderId (orders w);
     calls := calls w ++ [CallGetOrder orderId] ++ map readCall lines
              ++ [CallRemoveOrder orderId]
              ++ map writeCall (map (processed (stock w)) lines) |}.

(** The commit phase seen from the request: every line writes the count
    read in [read] minus its quantity, in list order. *)
Definition applyLines (read st : gmap (string * string) Z)
  (lines : list FulfilBookItem) : gmap (string * string) Z :=
  foldl (fun st l =>
           <[(book l, shelf l) :=
               copiesOnShelf read (book l) (shelf l) - numberOfBooks l]> st)
        st lines.

(** Sum of the quantities of the lines naming book [b]. *)
Definition sumFor (b : BookID) (lines : list FulfilBookItem) : Z :=
  foldr (fun l acc => if decide (book l = b) then numberOfBooks l + acc
                      else acc) 0 lines.

Definition mentions (b : BookID) (lines : list FulfilBookItem) : bool :=
  existsb (fun l => bool_decide (book l = b)) lines.

Definition nonNegative (w : WarehouseData) : Prop :=
  map_Forall (fun _ n => 0 <= n) (stock w).

(** ** Scenarios of the specification, run on the embedding *)

Definition line (b : BookID) (s : ShelfId) (n : Z) : FulfilBookItem :=
  {| book := b; shelf := s; numberOfBooks := n |}.

Definition emptyData : WarehouseData :=
  {| stock := ∅; orders := ∅; calls := [] |}.

Definition withStock (b : BookID) (s : ShelfId) (n : Z) (w : WarehouseData)
  : WarehouseData :=
  {| stock := <[(b, s) := n]> (stock w); orders := orders w;
     calls := calls w |}.

Definition withOrder (o : OrderId) (books : BookCounts) (w : WarehouseData)
  : WarehouseData :=
  {| stock := stock w; orders := <[o := books]> (orders w);
     calls := calls w |}.

Definition scenarioC : WarehouseData :=
  withOrder "o1" (tally ["X"; "X"; "Y"])
    (withStock "X" "A" 2 (withStock "Y" "A" 1 emptyData)).


(** An order for one copy of X, two copies of X on shelf A. *)
Definition oneOfTwo : WarehouseData :=
  withOrder "o1" {[ "X" := 1 ]} (withStock "X" "A" 2 emptyData).


(** ** Sequences of operations *)

Inductive Operation :=
  | PlaceBooksOnShelf (bookId : BookID) (numberOfBooks : Z) (shelf : ShelfId)
  | FulfilOrder (orderId : OrderId) (booksFulfilled : list FulfilBookItem).

Definition perform (op : Operation) : Promise unit :=
  match op with
  | PlaceBooksOnShelf b n s => placeBooksOnShelf b n s
  | FulfilOrder o lines => fulfilOrder o lines
  end.

(** The store after each operation of a sequence; a rejected operation
    hands on the store as its exception left it. *)
Fixpoint trajectory (ops : list Operation) (w : WarehouseData)
  : list WarehouseData :=
  match ops with
  | [] => []
  | op :: rest => let w1 := (perform op w).1 in w1 :: trajectory rest w1
  end.

(** The operation computes a negative count for some shelf. *)
Definition wouldGoNegative (op : Operation) (w : WarehouseData) : Prop :=
  match op with
  | PlaceBooksOnShelf b n s => copiesOnShelf (stock w) b s + n < 0
  | FulfilOrder _ lines =>
      Exists (fun l => copiesOnShelf (stock w) (book l) (shelf l)
                       - numberOfBooks l < 0) lines
  end.

(** ** Vocabulary of the properties *)

Definition succeeds {A} (p : Promise A) (w : WarehouseData) : Prop :=
  exists w' a, p w = (w', Resolved a).

Definition fails {A} (p : Promise A) (w : WarehouseData) : Prop :=
  exists w' e, p w = (w', Rejected e).

(** Number of occurrences of [b] in a list of book identifiers. *)
Definition occurrences (b : BookID) (books : list BookID) : Z :=
  Z.of_nat (length (filter (fun x => x = b) books)).


(** Every line asks for at most what its shelf holds. *)
Definition stockSuffices (st : gmap (string * string) Z)
  (lines : list FulfilBookItem) : Prop :=
  Forall (fun l => numberOfBooks l <= copiesOnShelf st (book l) (shelf l))
         lines.

(** Every book of the order is named by some line, and the quantities
    of its lines sum to the required quantity. *)
Definition quantitiesMatch (order : BookCounts) (lines : list FulfilBookItem)
  : Prop :=
  forall b q, order !! b = Some q ->
              mentions b lines = true /\ sumFor b lines = q.


(** [l] is the last line of [lines] that names its (book, shelf) pair. *)
Definition lastForPair (l : FulfilBookItem) (lines : list FulfilBookItem)
  : Prop :=
  exists before after,
    lines = before ++ l :: after /\
    Forall (fun l' => (book l', shelf l') <> (book l, shelf l)) after.

Definition readOnly (cs : list StoreCall) : Prop :=
  Forall (fun c => mutating c = false) cs.

(** ** The query helpers and the controllers *)

(** [interface OrderListItem] *)
Record OrderListItem := {
  orderId : OrderId;
  books : BookCounts
}.

(** The two listing calls of the store.  They change nothing in it and
    are not entered in its call log, which follows the placement and
    fulfilment paths. *)
Module DataReads.

(** Modelled from the spec: [getCopies] of the [WarehouseData] interface;
    the mapping shelf -> count of all shelves with a record for the book,
    a count of 0 included. *)
Definition getCopies (b : BookID) : Promise BookCounts :=
  fun w =>
    (w, Resolved
          (map_fold (fun k n copies =>
                       if decide (k.1 = b) then <[k.2 := n]> copies
                       else copies)
                    ∅ (stock w))).

(** Modelled from the spec: [listOrders] of the [WarehouseData]
    interface; every order record, in the order of the store. *)
Definition listOrders : Promise (list OrderListItem) :=
  fun w =>
    (w, Resolved
          (map (fun '(o, b) => {| orderId := o; books := b |})
               (map_to_list (orders w)))).

End DataReads.

(** The loop of [getBookInfo] over [Object.keys(copies)];
    [response[shelf] = number] on an object literal stores nothing for
    the shelf ["__proto__"]. *)
Definition positiveCopies (copies : BookCounts) : BookCounts :=
  foldl (fun response shelf =>
           match copies !! shelf with
           | Some number =>
               if 0 <? number then
                 if decide (shelf = "__proto__") then response
                 else <[shelf := number]> response
               else response
           | None => response
           end)
        ∅ (map_to_list copies).*1.

Definition getBookInfo (bookId : BookID) : Promise BookCounts :=
  await copies <- DataReads.getCopies bookId ;;
  ret (positiveCopies copies).

Definition listOrders : Promise (list OrderListItem) :=
  DataReads.listOrders.

(** What a controller method hands to the HTTP layer: a value with the
    status it set ([None] when it set none), or the
    [Error('Server error')] it throws after [setStatus(500)]. *)
Inductive Reply (A : Type) :=
  | Sent (status : option nat) (body : A)
  | ServerError (status : nat).
Arguments Sent {A} status body.
Arguments ServerError {A} status.

(** The [try { ... } catch { this.setStatus(500); throw ... }] frame of
    every controller method; [onSuccess] is the status the method sets
    after its helper has returned.  Modelled from the spec:
    [getDefaultWarehouseData] ([./warehouse_data]) hands out the shared
    store. *)
Definition handle {A} (onSuccess : option nat) (p : Promise A)
  : WarehouseData -> WarehouseData * Reply A :=
  fun w =>
    match p w with
    | (w1, Resolved a) => (w1, Sent onSuccess a)
    | (w1, Rejected _) => (w1, ServerError 500)
    end.

Module WarehouseController.

Definition getBookInfo (book : string)
  : WarehouseData -> WarehouseData * Reply BookCounts :=
  handle None (getBookInfo book).

Definition placeBooksOnShelf (book shelf : string) (number : Z)
  : WarehouseData -> WarehouseData * Reply unit :=
  handle None (placeBooksOnShelf book number shelf).

End WarehouseController.

Module OrderController.

Definition listOrders
  : WarehouseData -> WarehouseData * Reply (list OrderListItem) :=
  handle (Some 201%nat) listOrders.

Definition placeOrder (order : list BookID)
  : WarehouseData -> WarehouseData * Reply OrderId :=
  handle (Some 201%nat) (placeOrder order).

End OrderController.

Module FulfilController.

Definition fulfilOrder (order : string) (requestBody : list FulfilBookItem)
  : WarehouseData -> WarehouseData * Reply unit :=
  handle None (fulfilOrder order requestBody).

End FulfilController.

(** Requests to the five helpers, and the store each one leaves. *)
Inductive Request :=
  | GetBookInfo (book : BookID)
  | PutOnShelf (book : BookID) (shelf : ShelfId) (number : Z)
  | ListOrders
  | PostOrder (order : list BookID)
  | PutFulfil (order : OrderId) (lines : list FulfilBookItem).

Definition serve (r : Request) (w : WarehouseData) : WarehouseData :=
  match r with
  | GetBookInfo b => (getBookInfo b w).1
  | PutOnShelf b s n => (placeBooksOnShelf b n s w).1
  | ListOrders => (listOrders w).1
  | PostOrder bs => (placeOrder bs w).1
  | PutFulfil o lines => (fulfilOrder o lines w).1
  end.

Definition serveAll (rs : list Request) (w : WarehouseData) : WarehouseData :=
  foldl (fun w r => serve r w) w rs.

(** Every stored order asks for at least one copy of each of its books. *)
Definition wellFormedOrders (w : WarehouseData) : Prop :=
  forall o order b q,
    orders w !! o = Some order -> order !! b = Some q -> 1 <= q.

(** Total number of copies an order asks for. *)
Definition totalCopies (order : BookCounts) : Z :=
  map_fold (fun _ q total => q + total) 0 order.

(** One line per book of the order, all from shelf [s]. *)
Definition fromOneShelf (s : ShelfId) (order : BookCounts)
  : list FulfilBookItem :=
  map (fun '(b, q) => line b s q) (map_to_list order).

Definition pairOf (l : FulfilBookItem) : string * string :=
  (book l, shelf l).

(** ** The book catalogue: [src/books/delete.ts], [books.route.ts] *)

Module Catalogue.

(** [interface Book]; the helpers below only copy the fields.  Strings
    are sequences of code units, so [String.length] is [.length]. *)
Record Book := {
  id : option string;
  name : string;
  author : string;
  description : string;
  price : Z;
  image : string
}.

(** The [books] collection behind a [BookDatabaseAccessor]: its documents
    by [_id], and whether the store answers; an operation on a store that
    does not answer throws. *)
Record BookDatabase := {
  docs : gmap N Book;
  reachable : bool
}.

(** [type DeleteResult] *)
Inductive DeleteError := not_found | invalid_id | server_error.

Inductive DeleteResult :=
  | Success
  | Failure (error : DeleteError).

(** [deleteBook] of [delete.ts].  [createFromHexString] stands for
    [ObjectId.createFromHexString], [None] when it throws; the [catch]
    turns that exception, and one thrown by [deleteOne], into
    [server_error]. *)
Definition deleteBook (createFromHexString : string -> option N)
  (id : string) (db : BookDatabase) : BookDatabase * DeleteResult :=
  if negb (String.length id =? 24)%nat then (db, Failure invalid_id)
  else
    match createFromHexString id with
    | None => (db, Failure server_error)
    | Some objectId =>
        if reachable db then
          match docs db !! objectId with
          | Some _ =>
              ({| docs := delete objectId (docs db);
                  reachable := reachable db |}, Success)
          | None => (db, Failure not_found)
          end
        else (db, Failure server_error)
    end.

(** What a function without a [catch] of its own hands back. *)
Inductive Completion (A : Type) :=
  | Returns (a : A)
  | Throws.
Arguments Returns {A} a.
Arguments Throws {A}.

(** [getBook] of [books.route.ts]: [false] is [None]; [trim] stands for
    [String.prototype.trim].  The length is tested before trimming, the
    identifier returned is the one received. *)
Definition getBook (trim : string -> string)
  (createFromHexString : string -> option N)
  (id : string) (db : BookDatabase) : Completion (option Book) :=
  if negb (String.length id =? 24)%nat then Returns None
  else
    match createFromHexString (trim id) with
    | None => Throws
    | Some objectId =>
        if reachable db then
          match docs db !! objectId with
          | None => Returns None
          | Some result =>
              Returns (Some {| id := Some id; name := name result;
                               author := author result;
                               description := description result;
                               price := price result;
                               image := image result |})
          end
        else Throws
    end.

(** The reply of a [BooksController] method: a value, the
    [Error('Book not found')] thrown after [setStatus(404)], or an
    exception of the helper passing through. *)
Inductive BooksReply (A : Type) :=
  | Answer (a : A)
  | BookNotFound (status : nat)
  | Uncaught.
Arguments Answer {A} a.
Arguments BookNotFound {A} status.
Arguments Uncaught {A}.

(** [BooksController.deleteBook] *)
Definition controllerDeleteBook (createFromHexString : string -> option N)
  (id : string) (db : BookDatabase) : BookDatabase * BooksReply unit :=
  match deleteBook createFromHexString id db with
  | (db1, Success) => (db1, Answer tt)
  | (db1, Failure _) => (db1, BookNotFound 404)
  end.

(** [BooksController.getBook] *)
Definition controllerGetBook (trim : string -> string)
  (createFromHexString : string -> option N)
  (id : string) (db : BookDatabase) : BooksReply Book :=
  match getBook trim createFromHexString id db with
  | Returns (Some result) => Answer result
  | Returns None => BookNotFound 404
  | Throws => Uncaught
  end.

(** A parser of 24 hexadecimal digits, to run the helpers on. *)
Definition hexDigit (c : Ascii.ascii) : option N :=
  let n := Ascii.N_of_ascii c in
  if (48 <=? n)%N && (n <=? 57)%N then Some (n - 48)%N
  else if (97 <=? n)%N && (n <=? 102)%N then Some (n - 87)%N
  else if (65 <=? n)%N && (n <=? 70)%N then Some (n - 55)%N
  else None.

Fixpoint hexValue (s : string) (acc : N) : option N :=
  match s with
  | EmptyString => Some acc
  | String c rest =>
      match hexDigit c with
      | Some d => hexValue rest (16 * acc + d)%N
      | None => None
      end
  end.

Definition strictHex (s : string) : option N :=
  if (String.length s =? 24)%nat then hexValue s 0%N else None.

Definition sampleBook : Book :=
  {| id := None; name := "Book to Delete"; author := "Author";
     description := "Description"; price := 10;
     image := "http://example.com/book.jpg" |}.

Definition sampleDb : BookDatabase :=
  {| docs := {[ 1%N := sampleBook ]}; reachable := true |}.

Definition sampleId : string := "000000000000000000000001".

End Catalogue.

(** ** The database accessor: [src/db.ts] *)

Module Mongo.

(** The value of [global.MONGO_URI]. *)
Inductive GlobalValue :=
  | Undefined
  | Null
  | Str (s : string).

(** A [MongoClient]; [serial] tells apart the objects built by
    [new MongoClient]. *)
Record MongoClient := {
  clientUri : string;
  serial : nat
}.

(** The module state of [db.ts]: the global, the lazily built [_client],
    and the number of clients built so far. *)
Record Runtime := {
  MONGO_URI : GlobalValue;
  _client : option MongoClient;
  built : nat
}.

Definition DATABASE_NAME : string := "mcmasterful-books".

Definition getUri (rt : Runtime) : string :=
  match MONGO_URI rt with
  | Str s => s
  | Undefined | Null => "mongodb://mongo"
  end.

Definition isTestEnvironment (rt : Runtime) : bool :=
  match MONGO_URI rt with
  | Undefined => false
  | Null | Str _ => true
  end.

(** [getClient]; [accepts] stands for the connection-string check of
    [new MongoClient], which throws (here [None]) on a string it does not
    accept, before [_client] is assigned. *)
Definition getClient (accepts : string -> bool) (rt : Runtime)
  : Runtime * option MongoClient :=
  match _client rt with
  | Some c => (rt, Some c)
  | None =>
      if accepts (getUri rt) then
        let c := {| clientUri := getUri rt; serial := built rt |} in
        ({| MONGO_URI := MONGO_URI rt; _client := Some c;
            built := S (built rt) |}, Some c)
      else (rt, None)
  end.

Record Db := {
  dbClient : MongoClient;
  databaseName : string
}.

Record Collection := {
  collectionDb : Db;
  collectionName : string
}.

(** [interface BookDatabaseAccessor] *)
Record BookDatabaseAccessor := {
  database : Db;
  books : Collection
}.

(** [getBookDatabase]; [random] is the integer
    [Math.floor(Math.random() * 100000)], printed in decimal by
    [toString]; [named] stands for the driver's [mongoClient.db]: the
    name of the database it opens for the name asked, [None] when it
    throws on that name.  The result is [None] when [getClient] or
    [mongoClient.db] throws. *)
Definition getBookDatabase (accepts : string -> bool)
  (named : string -> option string) (random : N)
  (dbName : option string) (rt : Runtime)
  : Runtime * option BookDatabaseAccessor :=
  match getClient accepts rt with
  | (rt1, None) => (rt1, None)
  | (rt1, Some mongoClient) =>
      let asked :=
        match dbName with
        | Some given => given
        | None => if isTestEnvironment rt1 then pretty random
                  else DATABASE_NAME
        end in
      match named asked with
      | None => (rt1, None)
      | Some actual =>
          let database :=
            {| dbClient := mongoClient; databaseName := actual |} in
          (rt1, Some {| database := database;
                        books := {| collectionDb := database;
                                    collectionName := DATABASE_NAME |} |})
      end
  end.

(** A driver for the examples: it opens the default database [test]
    for the empty name and the database asked for otherwise, and never
    throws. *)
Definition lenientDb (name : string) : option string :=
  if decide (name = "") then Some "test" else Some name.

(** The test set-up assigning [global.MONGO_URI]. *)
Definition setMongoUri (v : GlobalValue) (rt : Runtime) : Runtime :=
  {| MONGO_URI := v; _client := _client rt; built := built rt |}.

Definition freshRuntime (v : GlobalValue) : Runtime :=
  {| MONGO_URI := v; _client := None; built := 0 |}.

End Mongo.

(** ** Vocabulary for inherited names and rounding *)


Definition ordinaryLines (lines : list FulfilBookItem) : Prop :=
  Forall (fun l => ordinary (book l)) lines.

Definition ordinaryRequest (r : Request) : Prop :=
  match r with
  | PostOrder bs => Forall ordinary bs
  | PutFulfil _ lines => ordinaryLines lines
  | GetBookInfo _ | PutOnShelf _ _ _ | ListOrders => True
  end.




(** ** The phases of [fulfilOrder], one lemma each *)

Lemma countRemoved_eq order lines : forall acc,
  countRemoved order acc lines =
  if knownBooks order lines then Resolved (foldl addRemoved acc lines)
  else Rejected UnknownBookInOrder.
Proof.
  induction lines as [|l lines IH]; intros acc; simpl; [done|].
  destruct (hasProperty order (book l)); simpl; [apply IH | done].
Qed.

Lemma checkCounts_eq order lines :
  checkCounts order (removedCounts lines) =
  if exactCounts order lines then Resolved tt else Rejected QuantityMismatch.
Proof. reflexivity. Qed.

Lemma appendCalls_appendCalls cs1 cs2 w :
  appendCalls cs2 (appendCalls cs1 w) = appendCalls (cs1 ++ cs2) w.
Proof. unfold appendCalls; simpl. by rewrite app_assoc. Qed.

Lemma processAll_eq lines : forall w,
  promiseAll (map processLine lines) w =
  (appendCalls (map readCall lines) w,
   if inStock (stock w) lines then Resolved (map (processed (stock w)) lines)
   else Rejected InsufficientStock).
Proof.
  induction lines as [|l lines IH]; intros w; simpl.
  - unfold ret, appendCalls. rewrite app_nil_r. by destruct w.
  - unfold processLine at 1, bind, Data.getCopiesOnShelf.
    fold (copiesOnShelf (stock w) (book l) (shelf l)).
    assert (Hrec : Data.record (readCall l) w = appendCalls [readCall l] w)
      by done.
    unfold readCall in Hrec at 1. rewrite Hrec.
    destruct (Z.ltb_spec
                (copiesOnShelf (stock w) (book l) (shelf l) - numberOfBooks l)
                0) as [Hlt|Hge].
    + unfold throw. rewrite IH, appendCalls_appendCalls. simpl.
      rewrite (proj2 (Z.leb_gt _ _)) by lia. done.
    + unfold ret. rewrite IH, appendCalls_appendCalls. simpl.
      rewrite (proj2 (Z.leb_le _ _)) by lia. simpl.
      by destruct (inStock (stock w) lines).
Qed.

Lemma commitAll_eq ps : forall w,
  Forall (fun p => 0 <= numberOfBooks p) ps ->
  promiseAll (map commitLine ps) w =
  ({| stock := foldl writeLine (stock w) ps; orders := orders w;
      calls := calls w ++ map writeCall ps |},
   Resolved (map (fun _ => tt) ps)).
Proof.
  induction ps as [|p ps IH]; intros w Hps; simpl.
  - unfold ret. rewrite app_nil_r. by destruct w.
  - inversion Hps as [|? ? Hp Hps']; subst.
    unfold commitLine at 1, Data.placeBookOnShelf.
    rewrite (proj2 (Z.ltb_ge _ _)) by done.
    rewrite IH by done. simpl. rewrite <- app_assoc. done.
Qed.

Lemma processed_nonneg st lines :
  inStock st lines = true ->
  Forall (fun p => 0 <= numberOfBooks p) (map (processed st) lines).
Proof.
  induction lines as [|l lines IH]; simpl; intros H; [constructor|].
  apply andb_true_iff in H as [Hl H]. constructor; [|by apply IH].
  apply Z.leb_le in Hl. simpl. lia.
Qed.

(** [fulfilOrder] as a decision list over its four checks. *)
Lemma fulfilOrder_eq orderId lines w :
  fulfilOrder orderId lines w =
  match orders w !! orderId with
  | None => (appendCalls [CallGetOrder orderId] w, Rejected OrderNotFound)
  | Some order =>
      if negb (knownBooks order lines) then
        (appendCalls [CallGetOrder orderId] w, Rejected UnknownBookInOrder)
      else if negb (exactCounts order lines) then
        (appendCalls [CallGetOrder orderId] w, Rejected QuantityMismatch)
      else if negb (inStock (stock w) lines) then
        (appendCalls ([CallGetOrder orderId] ++ map readCall lines) w,
         Rejected InsufficientStock)
      else (committed orderId lines w, Resolved tt)
  end.
Proof.
  unfold fulfilOrder, bind at 1, Data.getOrder.
  change (Data.record (CallGetOrder orderId) w)
    with (appendCalls [CallGetOrder orderId] w).
  destruct (orders w !! orderId) as [order|]; [|done].
  unfold bind at 1, lift at 1. rewrite countRemoved_eq.
  destruct (knownBooks order lines); simpl; [|done].
  unfold bind at 1, lift at 1.
  fold (removedCounts lines). rewrite checkCounts_eq.
  destruct (exactCounts order lines); simpl; [|done].
  unfold bind at 1. rewrite processAll_eq, appendCalls_appendCalls. simpl.
  destruct (inStock (stock w) lines) eqn:Hstock; simpl; [|done].
  unfold bind at 1, Data.removeOrder. simpl.
  unfold bind, ret. rewrite commitAll_eq by (by apply processed_nonneg).
  simpl. unfold committed. f_equal. f_equal.
  by rewrite <- !app_assoc.
Qed.

(** ** Boolean checks against their propositional readings *)

Lemma hasProperty_own (order : gmap string Z) k :
  is_Some (order !! k) -> hasProperty order k = true.
Proof.
  intros H. unfold hasProperty. by rewrite bool_decide_eq_true_2.
Qed.


Lemma knownBooks_own order lines :
  Forall (fun l => is_Some (order !! book l)) lines ->
  knownBooks order lines = true.
Proof.
  unfold knownBooks. induction 1 as [|l lines Hl _ IH]; simpl; [done|].
  by rewrite (hasProperty_own _ _ Hl), IH.
Qed.


Lemma knownBooks_false order lines :
  Exists (fun l => ordinary (book l) /\ order !! book l = None) lines ->
  knownBooks order lines = false.
Proof.
  unfold knownBooks. induction 1 as [l lines [Hl Hn]|l lines _ IH]; simpl.
  - unfold hasProperty. rewrite Hl, Hn, orb_false_r.
    rewrite bool_decide_eq_false_2; [done|]. by intros [? ?].
  - rewrite IH. apply andb_false_r.
Qed.

Lemma inStock_true st lines :
  inStock st lines = true <-> stockSuffices st lines.
Proof.
  unfold inStock, stockSuffices. rewrite <- Is_true_true, forallb_True.
  apply Forall_proper; [|done]. intros l.
  rewrite Is_true_true. apply Z.leb_le.
Qed.

Lemma exactCounts_true order lines :
  exactCounts order lines = true <->
  forall b q, order !! b = Some q -> removedCounts lines !! b = Some q.
Proof.
  unfold exactCounts. rewrite <- Is_true_true, forallb_True, Forall_forall.
  split.
  - intros H b q Hb. apply elem_of_map_to_list in Hb.
    apply H in Hb. simpl in Hb. by apply bool_decide_spec in Hb.
  - intros H [b q] Hb. apply elem_of_map_to_list in Hb.
    apply bool_decide_spec. by apply H.
Qed.

Lemma sumFor_unmentioned b lines :
  mentions b lines = false -> sumFor b lines = 0.
Proof.
  induction lines as [|l lines IH]; simpl; [done|].
  intros H. apply orb_false_iff in H as [Hl H].
  apply bool_decide_eq_false in Hl. rewrite decide_False by done. auto.
Qed.

Lemma foldl_addRemoved_lookup b lines : forall acc,
  foldl addRemoved acc lines !! b =
  if mentions b lines then Some (sumFor b lines + default 0 (acc !! b))
  else acc !! b.
Proof.
  induction lines as [|l lines IH]; intros acc; simpl; [done|].
  rewrite IH. unfold addRemoved.
  destruct (decide (book l = b)) as [->|Hne].
  - rewrite bool_decide_eq_true_2 by done. simpl.
    rewrite lookup_insert_eq. simpl.
    destruct (mentions b lines) eqn:Hm; f_equal; [lia|].
    rewrite (sumFor_unmentioned _ _ Hm). lia.
  - rewrite bool_decide_eq_false_2 by done. simpl.
    by rewrite lookup_insert_ne.
Qed.

Lemma removedCounts_lookup b lines :
  removedCounts lines !! b =
  if mentions b lines then Some (sumFor b lines) else None.
Proof.
  unfold removedCounts. rewrite foldl_addRemoved_lookup, lookup_empty. simpl.
  destruct (mentions b lines); [f_equal; lia | done].
Qed.


Lemma exactCounts_quantitiesMatch order lines :
  exactCounts order lines = true <-> quantitiesMatch order lines.
Proof.
  rewrite exactCounts_true. unfold quantitiesMatch.
  split; intros H b q Hb; specialize (H b q Hb);
    rewrite removedCounts_lookup in *.
  - destruct (mentions b lines); [split; congruence | done].
  - destruct H as [-> <-]. done.
Qed.

Lemma readOnly_reads lines : readOnly (map readCall lines).
Proof. unfold readOnly. rewrite Forall_map. by apply Forall_true. Qed.


(** ** Failure of [fulfilOrder] *)

(** C2. If [fulfilOrder] is rejected, the error is one of the four
    validation errors, the order store and every shelf count are those
    of the store before the call, and the calls made on the store up to
    the rejection are all reads. *)
Theorem fulfilOrder_failure_atomic w orderId lines w' e :
  fulfilOrder orderId lines w = (w', Rejected e) ->
  stock w' = stock w /\ orders w' = orders w /\
  (exists cs, calls w' = calls w ++ cs /\ readOnly cs) /\
  (e = OrderNotFound \/ e = UnknownBookInOrder \/
   e = QuantityMismatch \/ e = InsufficientStock).
Proof.
  rewrite fulfilOrder_eq.
  destruct (orders w !! orderId) as [order|].
  - destruct (knownBooks order lines); simpl.
    + destruct (exactCounts order lines); simpl.
      * destruct (inStock (stock w) lines); simpl; [done|].
        intros [= <- <-]. simpl. repeat split; [|by auto].
        eexists; split; [done|].
        constructor; [done | apply readOnly_reads].
      * intros [= <- <-]. simpl. repeat split; [|by auto].
        eexists; split; [done|]. by repeat constructor.
    + intros [= <- <-]. simpl. repeat split; [|by auto].
      eexists; split; [done|]. by repeat constructor.
  - intros [= <- <-]. simpl. repeat split; [|by auto].
    eexists; split; [done|]. by repeat constructor.
Qed.

Lemma fulfilOrder_failure_atomic_witness :
  let w' := (fulfilOrder "o1" [line "X" "A" 2; line "Y" "B" 1] scenarioC).1 in
  stock w' = stock scenarioC /\ orders w' = orders scenarioC /\
  (exists cs, calls w' = calls scenarioC ++ cs /\ readOnly cs) /\
  (InsufficientStock = OrderNotFound \/
   InsufficientStock = UnknownBookInOrder \/
   InsufficientStock = QuantityMismatch \/
   InsufficientStock = InsufficientStock).
Proof.
  apply (fulfilOrder_failure_atomic scenarioC "o1"
           [line "X" "A" 2; line "Y" "B" 1]
           (fulfilOrder "o1" [line "X" "A" 2; line "Y" "B" 1] scenarioC).1
           InsufficientStock).
  vm_compute. reflexivity.
Defined.

(** C7. The membership check lets through a line whose book the order
    does not require when the book is a property name of
    [Object.prototype], whatever the order.  The line [constructor, A, 5]
    against the order {X: 1} passes it and is rejected by the stock check
    only, with [InsufficientStock] and after the stock has been read,
    where the order of the checks calls for [UnknownBookInOrder]. *)
Theorem fulfilOrder_inherited_name :
  (forall (order : gmap string Z) k,
     inherited k = true -> hasProperty order k = true) /\
  orders oneOfTwo !! "o1" = Some {[ "X" := 1 ]} /\
  inherited "constructor" = true /\
  fulfilOrder "o1" [line "X" "A" 1; line "constructor" "A" 5] oneOfTwo =
  (appendCalls [CallGetOrder "o1"; CallGetCopiesOnShelf "X" "A";
                CallGetCopiesOnShelf "constructor" "A"] oneOfTwo,
   Rejected InsufficientStock).
Proof.
  split; [|split; [|split]].
  - intros order k Hk. unfold hasProperty. rewrite Hk. apply orb_true_r.
  - vm_compute. reflexivity.
  - vm_compute. reflexivity.
  - vm_compute. reflexivity.
Qed.



(** ** Conservation *)

Lemma fulfilOrder_succeeds_iff w orderId order lines :
  orders w !! orderId = Some order ->
  succeeds (fulfilOrder orderId lines) w <->
  knownBooks order lines = true /\ exactCounts order lines = true /\
  inStock (stock w) lines = true.
Proof.
  intros Ho. unfold succeeds. rewrite fulfilOrder_eq, Ho.
  destruct (knownBooks order lines), (exactCounts order lines),
    (inStock (stock w) lines); simpl;
    (split; [intros (w' & a & H); by inversion H | intros (? & ? & ?)]);
    try done.
  eauto.
Qed.




(** ** The commit phase *)

Lemma foldl_writeLine_processed read lines : forall st,
  foldl writeLine st (map (processed read) lines) = applyLines read st lines.
Proof. induction lines as [|l lines IH]; intros st; simpl; [done|apply IH]. Qed.

Lemma applyLines_app read st l1 l2 :
  applyLines read st (l1 ++ l2) = applyLines read (applyLines read st l1) l2.
Proof. apply foldl_app. Qed.

Lemma applyLines_untouched read k lines : forall st,
  Forall (fun l' => (book l', shelf l') <> k) lines ->
  applyLines read st lines !! k = st !! k.
Proof.
  unfold applyLines.
  induction lines as [|l lines IH]; intros st H; simpl; [done|].
  inversion H; subst. rewrite IH by done.
  by apply lookup_insert_ne.
Qed.

Lemma applyLines_last read st l lines :
  lastForPair l lines ->
  applyLines read st lines !! (book l, shelf l) =
  Some (copiesOnShelf read (book l) (shelf l) - numberOfBooks l).
Proof.
  intros (before & after & -> & Hafter).
  rewrite applyLines_app. simpl.
  fold (applyLines read
          (<[(book l, shelf l) :=
               copiesOnShelf read (book l) (shelf l) - numberOfBooks l]>
             (applyLines read st before)) after).
  rewrite applyLines_untouched by done. apply lookup_insert_eq.
Qed.

Lemma fulfilOrder_resolved w orderId lines w' :
  fulfilOrder orderId lines w = (w', Resolved tt) ->
  w' = committed orderId lines w /\
  exists order, orders w !! orderId = Some order /\
                knownBooks order lines = true /\
                exactCounts order lines = true /\
                inStock (stock w) lines = true.
Proof.
  rewrite fulfilOrder_eq. destruct (orders w !! orderId) as [order|]; [|done].
  destruct (knownBooks order lines) eqn:Hk; simpl; [|done].
  destruct (exactCounts order lines) eqn:Hq; simpl; [|done].
  destruct (inStock (stock w) lines) eqn:Hs; simpl; [|done].
  intros [= <-]. split; [done|]. by exists order.
Qed.

Lemma fulfilOrder_resolves w orderId order lines :
  orders w !! orderId = Some order ->
  Forall (fun l => is_Some (order !! book l)) lines ->
  quantitiesMatch order lines ->
  stockSuffices (stock w) lines ->
  fulfilOrder orderId lines w = (committed orderId lines w, Resolved tt).
Proof.
  intros Ho Hk Hq Hs. rewrite fulfilOrder_eq, Ho.
  apply knownBooks_own in Hk. apply exactCounts_quantitiesMatch in Hq.
  apply inStock_true in Hs. by rewrite Hk, Hq, Hs.
Qed.



Lemma copiesOnShelf_last w orderId lines w' l :
  fulfilOrder orderId lines w = (w', Resolved tt) ->
  lastForPair l lines ->
  copiesOnShelf (stock w') (book l) (shelf l) =
  copiesOnShelf (stock w) (book l) (shelf l) - numberOfBooks l.
Proof.
  intros Hrun Hlast. apply fulfilOrder_resolved in Hrun as [-> _]. simpl.
  rewrite foldl_writeLine_processed. unfold copiesOnShelf at 1.
  by rewrite (applyLines_last _ _ _ _ Hlast).
Qed.




Lemma copiesOnShelf_nonneg w b s :
  nonNegative w -> 0 <= copiesOnShelf (stock w) b s.
Proof.
  intros Hw. unfold copiesOnShelf.
  destruct (stock w !! (b, s)) as [n|] eqn:Hn; simpl; [|lia].
  exact (Hw _ _ Hn).
Qed.




(** ** Shelf placement *)

Lemma roundToDouble_exact z : Z.abs z <= 2 ^ 53 -> roundToDouble z = z.
Proof.
  intros H. unfold roundToDouble. cbv zeta.
  by rewrite (proj2 (Z.leb_le _ _) H).
Qed.

Lemma roundToDouble_magnitude z :
  2 ^ 53 < Z.abs z -> exists p, 0 < p /\ roundToDouble z = Z.sgn z * p.
Proof.
  intros H. unfold roundToDouble. cbv zeta.
  rewrite (proj2 (Z.leb_gt _ _) H).
  set (a := Z.abs z) in *. set (e := Z.log2 a - 52).
  assert (Ha : 0 < a) by (pose proof (Z.pow_pos_nonneg 2 53); lia).
  assert (Hlog : 53 <= Z.log2 a).
  { rewrite <- (Z.log2_pow2 53) by lia. apply Z.log2_le_mono. lia. }
  assert (He : 0 < 2 ^ e) by (apply Z.pow_pos_nonneg; lia).
  assert (Hle : 2 ^ e <= a).
  { transitivity (2 ^ Z.log2 a).
    - apply Z.pow_le_mono_r; lia.
    - apply Z.log2_spec. lia. }
  assert (Hq : 1 <= a / 2 ^ e) by (apply Z.div_le_lower_bound; lia).
  eexists. split; [|reflexivity].
  apply Z.mul_pos_pos; [|done].
  destruct ((2 ^ (e - 1) <? a mod 2 ^ e)
            || (a mod 2 ^ e =? 2 ^ (e - 1)) && Z.odd (a / 2 ^ e)); lia.
Qed.

Lemma roundToDouble_sign z :
  (0 <= z -> 0 <= roundToDouble z) /\ (z < 0 -> roundToDouble z < 0).
Proof.
  destruct (Z.le_gt_cases (Z.abs z) (2 ^ 53)) as [Hs|Hb].
  - rewrite (roundToDouble_exact z Hs). lia.
  - destruct (roundToDouble_magnitude z Hb) as (p & Hp & ->). split.
    + intros Hz. assert (0 < z) by lia. rewrite Z.sgn_pos by done. lia.
    + intros Hz. rewrite Z.sgn_neg by done. lia.
Qed.


Lemma jsAdd_nonneg x y : 0 <= x + y -> 0 <= jsAdd x y.
Proof. apply roundToDouble_sign. Qed.

Lemma jsAdd_neg x y : x + y < 0 -> jsAdd x y < 0.
Proof. apply roundToDouble_sign. Qed.

Lemma placeBooksOnShelf_eq b n s w :
  placeBooksOnShelf b n s w =
  if n <? 0 then (w, Rejected ValidationError)
  else
    let newCount := jsAdd (copiesOnShelf (stock w) b s) n in
    let issued := [CallGetCopiesOnShelf b s;
                   CallPlaceBookOnShelf b s newCount] in
    if newCount <? 0 then (appendCalls issued w, Rejected ValidationError)
    else ({| stock := <[(b, s) := newCount]> (stock w);
             orders := orders w; calls := calls w ++ issued |},
          Resolved tt).
Proof.
  unfold placeBooksOnShelf. destruct (n <? 0); [done|].
  unfold bind, Data.getCopiesOnShelf, Data.placeBookOnShelf. simpl.
  fold (copiesOnShelf (stock w) b s).
  destruct (jsAdd (copiesOnShelf (stock w) b s) n <? 0);
    unfold appendCalls, Data.record; simpl; by rewrite <- app_assoc.
Qed.

(** C10. [placeBooksOnShelf] with a negative number is rejected with
    [ValidationError] and hands back the store as it received it, with no
    call recorded: the rejection precedes every store read and write.
    With a number that is not negative the guard lets the request
    through: the store is read and then written, and on a store with
    non-negative counts the placement succeeds. *)
Theorem placeBooksOnShelf_validation b s n w :
  (n < 0 -> placeBooksOnShelf b n s w = (w, Rejected ValidationError)) /\
  (0 <= n ->
   calls (placeBooksOnShelf b n s w).1 =
     calls w ++ [CallGetCopiesOnShelf b s;
                 CallPlaceBookOnShelf b s
                   (jsAdd (copiesOnShelf (stock w) b s) n)]
   /\ (nonNegative w -> succeeds (placeBooksOnShelf b n s) w)).
Proof.
  unfold succeeds. rewrite placeBooksOnShelf_eq. split.
  - intros Hn. by rewrite (proj2 (Z.ltb_lt _ _) Hn).
  - intros Hn. rewrite (proj2 (Z.ltb_ge _ _) Hn). cbv zeta. split.
    + by destruct (jsAdd (copiesOnShelf (stock w) b s) n <? 0).
    + intros Hw. pose proof (copiesOnShelf_nonneg w b s Hw) as Hc.
      rewrite (proj2 (Z.ltb_ge _ _)) by (apply jsAdd_nonneg; lia). eauto.
Qed.

Lemma placeBooksOnShelf_validation_witness :
  placeBooksOnShelf "X" (-1) "A" scenarioC
  = (scenarioC, Rejected ValidationError).
Proof.
  apply (proj1 (placeBooksOnShelf_validation "X" "A" (-1) scenarioC)).
  lia.
Defined.






(** ** Non-negative stock *)

Lemma applyLines_nonneg read lines : forall st,
  map_Forall (fun _ n => 0 <= n) st ->
  stockSuffices read lines ->
  map_Forall (fun _ n => 0 <= n) (applyLines read st lines).
Proof.
  unfold applyLines, stockSuffices.
  induction lines as [|l lines IH]; intros st Hst Hs; simpl; [done|].
  inversion Hs; subst. apply IH; [|done].
  apply map_Forall_insert_2; [lia | done].
Qed.

Lemma perform_rejected op w w' e :
  perform op w = (w', Rejected e) ->
  stock w' = stock w /\ orders w' = orders w.
Proof.
  destruct op as [b n s|orderId lines]; simpl.
  - rewrite placeBooksOnShelf_eq. cbv zeta.
    destruct (n <? 0); [by intros [= <- _]|].
    destruct (jsAdd (copiesOnShelf (stock w) b s) n <? 0); [|done].
    by intros [= <- _].
  - rewrite fulfilOrder_eq.
    destruct (orders w !! orderId) as [order|]; [|by intros [= <- _]].
    destruct (knownBooks order lines); simpl; [|by intros [= <- _]].
    destruct (exactCounts order lines); simpl; [|by intros [= <- _]].
    destruct (inStock (stock w) lines); simpl; [done|by intros [= <- _]].
Qed.

Lemma perform_nonNegative op w :
  nonNegative w -> nonNegative (perform op w).1.
Proof.
  intros Hw. destruct (perform op w) as [w' [[]|e]] eqn:Hrun; simpl.
  - destruct op as [b n s|orderId lines]; simpl in Hrun.
    + rewrite placeBooksOnShelf_eq in Hrun. cbv zeta in Hrun.
      destruct (n <? 0); [done|].
      destruct (Z.ltb_spec (jsAdd (copiesOnShelf (stock w) b s) n) 0);
        [done|].
      injection Hrun as <-. unfold nonNegative. simpl.
      by apply map_Forall_insert_2.
    + apply fulfilOrder_resolved in Hrun as (-> & order & _ & _ & _ & Hs).
      unfold nonNegative. simpl. rewrite foldl_writeLine_processed.
      apply applyLines_nonneg; [done|]. by apply inStock_true.
  - apply perform_rejected in Hrun as [Hst _].
    unfold nonNegative. by rewrite Hst.
Qed.

Lemma wouldGoNegative_fails op w : wouldGoNegative op w -> fails (perform op) w.
Proof.
  unfold fails. destruct op as [b n s|orderId lines]; simpl.
  - intros Hneg. rewrite placeBooksOnShelf_eq. cbv zeta.
    destruct (n <? 0); [eauto|].
    rewrite (proj2 (Z.ltb_lt _ _) (jsAdd_neg _ _ Hneg)). eauto.
  - intros Hneg. rewrite fulfilOrder_eq.
    destruct (orders w !! orderId) as [order|]; [|eauto].
    destruct (knownBooks order lines); simpl; [|eauto].
    destruct (exactCounts order lines); simpl; [|eauto].
    destruct (inStock (stock w) lines) eqn:Hs; simpl; [|eauto].
    exfalso. apply inStock_true in Hs. apply Exists_exists in Hneg.
    destruct Hneg as (l & Hl & Hlt).
    unfold stockSuffices in Hs. rewrite Forall_forall in Hs.
    specialize (Hs l Hl). simpl in Hs. lia.
Qed.

(** C3. From a store in which every count is at least 0, the store
    after each operation of any sequence of [placeBooksOnShelf] and
    [fulfilOrder] requests has every count at least 0.  An operation that
    computes a negative count for some shelf is rejected, and a rejected
    operation leaves the stock and the orders as they were. *)
Theorem stock_never_negative ops w :
  nonNegative w ->
  Forall nonNegative (trajectory ops w) /\
  (forall op w1, wouldGoNegative op w1 -> fails (perform op) w1) /\
  (forall op w1 w2 e,
     perform op w1 = (w2, Rejected e) ->
     stock w2 = stock w1 /\ orders w2 = orders w1).
Proof.
  intros Hw. split; [|split].
  - revert w Hw. induction ops as [|op ops IH]; intros w Hw; simpl.
    + constructor.
    + pose proof (perform_nonNegative op w Hw). constructor; auto.
  - apply wouldGoNegative_fails.
  - apply perform_rejected.
Qed.

Lemma stock_never_negative_witness :
  Forall nonNegative
    (trajectory [PlaceBooksOnShelf "X" 3 "B";
                 FulfilOrder "o1" [line "X" "B" 2; line "Y" "B" 1];
                 PlaceBooksOnShelf "X" (-4) "B";
                 FulfilOrder "o1" [line "X" "B" 2; line "Y" "A" 1]]
       scenarioC).
Proof.
  apply (stock_never_negative
           [PlaceBooksOnShelf "X" 3 "B";
            FulfilOrder "o1" [line "X" "B" 2; line "Y" "B" 1];
            PlaceBooksOnShelf "X" (-4) "B";
            FulfilOrder "o1" [line "X" "B" 2; line "Y" "A" 1]]
           scenarioC).
  apply map_Forall_to_list. vm_compute.
  repeat (constructor; [intros ?; discriminate|]). constructor.
Defined.

(** ** Order placement *)

Lemma occurrences_cons b x books :
  occurrences b (x :: books) =
  if decide (x = b) then 1 + occurrences b books else occurrences b books.
Proof.
  unfold occurrences. rewrite filter_cons.
  destruct (decide (x = b)); simpl; lia.
Qed.

Lemma occurrences_nonneg b books : 0 <= occurrences b books.
Proof. unfold occurrences. lia. Qed.

Lemma foldl_count_lookup b books : forall acc : gmap string Z,
  foldl (fun order book => <[book := 1 + default 0 (order !! book)]> order)
        acc books !! b =
  if decide (occurrences b books = 0) then acc !! b
  else Some (occurrences b books + default 0 (acc !! b)).
Proof.
  induction books as [|x books IH]; intros acc; simpl; [done|].
  rewrite IH, occurrences_cons.
  pose proof (occurrences_nonneg b books) as Hnn.
  destruct (decide (x = b)) as [->|Hne].
  - rewrite lookup_insert_eq. simpl.
    rewrite (decide_False (P := 1 + occurrences b books = 0)) by lia.
    destruct (decide (occurrences b books = 0)) as [->|]; f_equal; lia.
  - by rewrite lookup_insert_ne.
Qed.

Lemma ordinary_not_proto k : ordinary k -> k <> "__proto__".
Proof. intros Hk ->. vm_compute in Hk. discriminate. Qed.

(** On ordinary books the loop of [placeOrder] is a plain count. *)
Lemma tally_plain books :
  Forall ordinary books ->
  tally books =
  foldl (fun order book => <[book := 1 + default 0 (order !! book)]> order)
        ∅ books.
Proof.
  unfold tally. generalize (∅ : gmap string Z).
  induction books as [|x books IH]; intros acc Hord; simpl; [done|].
  inversion Hord as [|? ? Hx Hrest]; subst.
  rewrite decide_False by (by apply ordinary_not_proto).
  by apply IH.
Qed.

Lemma tally_lookup bs b :
  Forall ordinary bs ->
  tally bs !! b =
  if decide (occurrences b bs = 0) then None else Some (occurrences b bs).
Proof.
  intros Hord. rewrite (tally_plain bs Hord).
  rewrite foldl_count_lookup, lookup_empty. simpl.
  destruct (decide (occurrences b bs = 0)); [done|]. f_equal. lia.
Qed.

(** C8. For the list [__proto__] the loop of [placeOrder] stores
    nothing, the assignment [order["__proto__"] = ...] on an object
    literal having no effect: the order stored is empty, where the
    mapping of each book to its number of occurrences is
    {__proto__: 1}. *)
Theorem placeOrder_inherited_name :
  occurrences "__proto__" ["__proto__"] = 1 /\
  tally ["__proto__"] = ∅ /\
  exists w1 o,
    placeOrder ["__proto__"] emptyData = (w1, Resolved o) /\
    orders w1 !! o = Some ∅.
Proof.
  split; [vm_compute; reflexivity|]. split; [vm_compute; reflexivity|].
  eexists _, _. split; [reflexivity|]. vm_compute. reflexivity.
Qed.

(** X20. For a sequence of book identifiers none of which is a property
    name of [Object.prototype], the empty sequence included,
    [placeOrder] stores, under an identifier that no stored order has,
    the mapping from each book of the sequence to its number of
    occurrences, and returns that identifier; the stock is untouched.
    [X, X, Y] gives {X: 2, Y: 1}. *)
Theorem placeOrder_tally books w :
  Forall ordinary books ->
  (exists orderId,
     placeOrder books w =
     ({| stock := stock w;
         orders := <[orderId := tally books]> (orders w);
         calls := calls w ++ [CallPlaceOrder (tally books)] |},
      Resolved orderId) /\
     orders w !! orderId = None) /\
  (forall b,
     tally books !! b =
     if decide (occurrences b books = 0) then None
     else Some (occurrences b books)) /\
  tally [] = ∅ /\
  tally ["X"; "X"; "Y"] = {[ "X" := 2; "Y" := 1 ]}.
Proof.
  intros Hord. split; [|split; [|split]].
  - eexists. split; [reflexivity|].
    simpl. apply not_elem_of_dom. apply is_fresh.
  - intros b. by apply tally_lookup.
  - reflexivity.
  - vm_compute. reflexivity.
Qed.

Lemma placeOrder_tally_witness :
  exists orderId,
    placeOrder ["X"; "X"; "Y"] emptyData =
    ({| stock := stock emptyData;
        orders := <[orderId := tally ["X"; "X"; "Y"]]> (orders emptyData);
        calls := calls emptyData ++ [CallPlaceOrder (tally ["X"; "X"; "Y"])]
      |},
     Resolved orderId) /\
    orders emptyData !! orderId = None.
Proof.
  refine (proj1 (placeOrder_tally ["X"; "X"; "Y"] emptyData _)).
  repeat constructor.
Defined.

(** ** Inventory query *)

Lemma getCopies_lookup (b : string) (st : gmap (string * string) Z)
  (s : string) :
  map_fold (fun (k : string * string) (n : Z) (copies : gmap string Z) =>
              if decide (k.1 = b) then <[k.2 := n]> copies else copies)
           ∅ st !! s
  = st !! (b, s).
Proof.
  revert s.
  apply (map_fold_weak_ind
           (fun (r : gmap string Z) (m : gmap (string * string) Z) =>
              forall s, r !! s = m !! (b, s))).
  - intros s. by rewrite !lookup_empty.
  - intros [b' s'] x m r Hm IH s. simpl.
    destruct (decide (b' = b)) as [->|Hb].
    + destruct (decide (s' = s)) as [->|Hs].
      * by rewrite !lookup_insert_eq.
      * rewrite !lookup_insert_ne by congruence. apply IH.
    + rewrite lookup_insert_ne by congruence. apply IH.
Qed.

Lemma foldl_positive_lookup (copies : gmap string Z) (s : string)
  (ks : list string) :
  forall acc : gmap string Z,
  foldl (fun response shelf =>
           match copies !! shelf with
           | Some number =>
               if 0 <? number then
                 if decide (shelf = "__proto__") then response
                 else <[shelf := number]> response
               else response
           | None => response
           end) acc ks !! s
  = if decide (s = "__proto__") then acc !! s
    else match copies !! s with
         | Some n => if bool_decide (s ∈ ks) && (0 <? n) then Some n
                     else acc !! s
         | None => acc !! s
         end.
Proof.
  induction ks as [|k ks IH]; intros acc; simpl.
  - destruct (decide (s = "__proto__")); [done|]. by destruct (copies !! s).
  - rewrite IH. destruct (decide (s = "__proto__")) as [Hs|Hs].
    + destruct (copies !! k) as [m|]; [|done].
      destruct (0 <? m); [|done].
      destruct (decide (k = "__proto__")); [done|].
      rewrite lookup_insert_ne; [done|congruence].
    + destruct (decide (k = s)) as [->|Hk].
      * destruct (copies !! s) as [n|]; [|done].
        rewrite (bool_decide_eq_true_2 (s ∈ s :: ks)) by left. simpl.
        destruct (0 <? n).
        -- rewrite decide_False by done. rewrite lookup_insert_eq.
           by destruct (bool_decide (s ∈ ks)).
        -- by rewrite andb_false_r.
      * assert (Hin : bool_decide (s ∈ k :: ks) = bool_decide (s ∈ ks)).
        { apply bool_decide_ext. rewrite elem_of_cons.
          split; [intros [?|?]; [congruence|done] | by right]. }
        rewrite Hin.
        assert (Hstep :
          match copies !! k with
          | Some number =>
              if 0 <? number then
                if decide (k = "__proto__") then acc
                else <[k := number]> acc
              else acc
          | None => acc
          end !! s = acc !! s).
        { destruct (copies !! k) as [m|]; [|done].
          destruct (0 <? m); [|done].
          destruct (decide (k = "__proto__")); [done|].
          by rewrite lookup_insert_ne. }
        rewrite Hstep. done.
Qed.

Lemma positiveCopies_lookup (copies : gmap string Z) (s : string) :
  positiveCopies copies !! s
  = if decide (s = "__proto__") then None
    else match copies !! s with
         | Some n => if 0 <? n then Some n else None
         | None => None
         end.
Proof.
  unfold positiveCopies. rewrite foldl_positive_lookup, lookup_empty.
  destruct (decide (s = "__proto__")) as [Hp|Hp]; [done|].
  destruct (copies !! s) as [c|] eqn:Hs; [|done].
  rewrite bool_decide_eq_true_2; [done|].
  apply list_elem_of_fmap. exists (s, c). split; [done|].
  by apply elem_of_map_to_list.
Qed.


(** X1. [getBookInfo] hands back the store untouched and reports shelf
    [s] with count [n] exactly when [s] is not ["__proto__"], the store
    holds a record of [n] copies of the book on [s], and [n] is positive:
    shelves with a count of 0, or below, shelves of other books, and a
    shelf named ["__proto__"], which the response object cannot hold,
    never appear. *)
Theorem getBookInfo_positive b w :
  exists r,
    getBookInfo b w = (w, Resolved r) /\
    forall s n,
      r !! s = Some n <->
      s <> "__proto__" /\ stock w !! (b, s) = Some n /\ 0 < n.
Proof.
  eexists. split; [reflexivity|]. intros s n.
  rewrite positiveCopies_lookup, getCopies_lookup.
  destruct (decide (s = "__proto__")) as [Hs|Hs];
    [split; [done | by intros [? _]]|].
  destruct (stock w !! (b, s)) as [m|];
    [|split; [done | by intros (_ & ? & _)]].
  destruct (Z.ltb_spec 0 m); split.
  - intros [= <-]. done.
  - by intros (_ & [= <-] & _).
  - done.
  - intros (_ & [= <-] & ?). lia.
Qed.





(** ** Order listing *)

Lemma listOrders_eq w :
  exists items,
    listOrders w = (w, Resolved items) /\
    length items = size (orders w) /\
    forall it, it ∈ items <-> orders w !! orderId it = Some (books it).
Proof.
  eexists. split; [reflexivity|]. split.
  - by rewrite length_map, length_map_to_list.
  - intros [o b]. simpl. rewrite list_elem_of_fmap. split.
    + intros ([o' b'] & [= -> ->] & Hin). by apply elem_of_map_to_list.
    + intros Hin. exists (o, b). split; [done|].
      by apply elem_of_map_to_list.
Qed.

Lemma placeOrder_eq bs w :
  placeOrder bs w =
  ({| stock := stock w;
      orders := <[fresh (dom (orders w)) := tally bs]> (orders w);
      calls := calls w ++ [CallPlaceOrder (tally bs)] |},
   Resolved (fresh (dom (orders w)))).
Proof. reflexivity. Qed.

Lemma fresh_order_unused (w : WarehouseData) :
  orders w !! fresh (dom (orders w)) = None.
Proof. apply not_elem_of_dom, is_fresh. Qed.

(** X4. [listOrders] follows the other helpers: after [placeOrder] for
    books none of which is a property name of [Object.prototype] it
    lists one item more, the new identifier with the number of
    occurrences of each book of the request, beside every item it listed
    before; after a successful [fulfilOrder] it lists one item fewer,
    namely every earlier item but the one of the fulfilled order. *)
Theorem listOrders_tracks :
  (forall w bs w1 o,
     Forall ordinary bs ->
     placeOrder bs w = (w1, Resolved o) ->
     exists before after,
       listOrders w = (w, Resolved before) /\
       listOrders w1 = (w1, Resolved after) /\
       length after = S (length before) /\
       (exists order,
          {| orderId := o; books := order |} ∈ after /\
          forall b,
            order !! b =
            if decide (occurrences b bs = 0) then None
            else Some (occurrences b bs)) /\
       forall it, it ∈ before -> it ∈ after) /\
  (forall w o lines w',
     fulfilOrder o lines w = (w', Resolved tt) ->
     exists before after,
       listOrders w = (w, Resolved before) /\
       listOrders w' = (w', Resolved after) /\
       S (length after) = length before /\
       forall it, it ∈ after <-> it ∈ before /\ orderId it <> o).
Proof.
  split.
  - intros w bs w1 o Hord. rewrite placeOrder_eq. intros [= <- <-].
    pose proof (fresh_order_unused w) as Hfresh.
    destruct (listOrders_eq w) as (before & Hb & Hlb & Hinb).
    match goal with
    | |- exists _ _, _ /\ listOrders ?w1 = _ /\ _ =>
        destruct (listOrders_eq w1) as (after & Ha & Hla & Hina)
    end.
    exists before, after. cbn [orders] in Hla, Hina.
    split; [done|]. split; [done|]. split; [|split].
    + rewrite Hla, Hlb. by apply map_size_insert_None.
    + exists (tally bs). split.
      * apply Hina. simpl. apply lookup_insert_eq.
      * intros b. by apply tally_lookup.
    + intros it Hit. apply Hina. apply Hinb in Hit.
      rewrite lookup_insert_ne; [done|]. congruence.
  - intros w o lines w' Hrun.
    apply fulfilOrder_resolved in Hrun as (-> & order & Ho & _).
    destruct (listOrders_eq w) as (before & Hb & Hlb & Hinb).
    destruct (listOrders_eq (committed o lines w))
      as (after & Ha & Hla & Hina).
    exists before, after. cbn [committed orders] in Hla, Hina.
    split; [done|]. split; [done|]. split.
    + rewrite Hla, Hlb, map_size_delete, Ho.
      assert (size (orders w) <> 0%nat).
      { intros Hz. apply map_size_empty_inv in Hz.
        rewrite Hz, lookup_empty in Ho. done. }
      lia.
    + intros it. rewrite Hina, Hinb, lookup_delete_Some.
      split; intros [? ?]; split; congruence.
Qed.

Lemma listOrders_tracks_witness :
  exists before after,
    listOrders scenarioC = (scenarioC, Resolved before) /\
    listOrders (placeOrder ["Z"] scenarioC).1
    = ((placeOrder ["Z"] scenarioC).1, Resolved after) /\
    length after = S (length before) /\
    (exists order,
       {| orderId := fresh (dom (orders scenarioC)); books := order |}
       ∈ after /\
       forall b,
         order !! b =
         if decide (occurrences b ["Z"] = 0) then None
         else Some (occurrences b ["Z"])) /\
    forall it, it ∈ before -> it ∈ after.
Proof.
  apply (proj1 listOrders_tracks scenarioC ["Z"]).
  - repeat constructor.
  - reflexivity.
Defined.

(** ** Further behaviour of [fulfilOrder] *)

(** X5. An order is consumed once: after a successful [fulfilOrder],
    every further [fulfilOrder] for the same identifier, whatever its
    lines, is rejected with [OrderNotFound] before any stock is read. *)
Theorem fulfilOrder_once w orderId lines w' lines' :
  fulfilOrder orderId lines w = (w', Resolved tt) ->
  fulfilOrder orderId lines' w' =
  (appendCalls [CallGetOrder orderId] w', Rejected OrderNotFound).
Proof.
  intros Hrun. apply fulfilOrder_resolved in Hrun as [-> _].
  rewrite fulfilOrder_eq. cbn [committed orders].
  by rewrite lookup_delete_eq.
Qed.

Lemma fulfilOrder_once_witness :
  fulfilOrder "o1" [line "X" "A" 2; line "Y" "A" 1]
    (fulfilOrder "o1" [line "X" "A" 2; line "Y" "A" 1] scenarioC).1 =
  (appendCalls [CallGetOrder "o1"]
     (fulfilOrder "o1" [line "X" "A" 2; line "Y" "A" 1] scenarioC).1,
   Rejected OrderNotFound).
Proof.
  apply (fulfilOrder_once scenarioC "o1"
           [line "X" "A" 2; line "Y" "A" 1]).
  vm_compute. reflexivity.
Defined.

(** X6. A successful [fulfilOrder] touches nothing else: every other
    order is still stored unchanged, and the record of every (book,
    shelf) pair that no line names is as it was. *)
Theorem fulfilOrder_frame w orderId lines w' :
  fulfilOrder orderId lines w = (w', Resolved tt) ->
  (forall o, o <> orderId -> orders w' !! o = orders w !! o) /\
  (forall b s,
     Forall (fun l => (book l, shelf l) <> (b, s)) lines ->
     stock w' !! (b, s) = stock w !! (b, s)).
Proof.
  intros Hrun. apply fulfilOrder_resolved in Hrun as [-> _].
  cbn [committed orders stock]. split.
  - intros o Ho. by rewrite lookup_delete_ne.
  - intros b s Hs. rewrite foldl_writeLine_processed.
    by apply applyLines_untouched.
Qed.

Lemma fulfilOrder_frame_witness :
  let w' := (fulfilOrder "o1" [line "X" "A" 2; line "Y" "A" 1] scenarioC).1 in
  (forall o, o <> "o1" -> orders w' !! o = orders scenarioC !! o) /\
  (forall b s,
     Forall (fun l => (book l, shelf l) <> (b, s))
            [line "X" "A" 2; line "Y" "A" 1] ->
     stock w' !! (b, s) = stock scenarioC !! (b, s)).
Proof.
  apply (fulfilOrder_frame scenarioC "o1" [line "X" "A" 2; line "Y" "A" 1]).
  vm_compute. reflexivity.
Defined.

Lemma lastForPair_NoDup l lines :
  NoDup (map pairOf lines) -> l ∈ lines -> lastForPair l lines.
Proof.
  intros Hnd Hl. apply list_elem_of_split in Hl as (before & after & ->).
  exists before, after. split; [done|].
  rewrite map_app in Hnd. apply NoDup_app in Hnd as (_ & _ & Hnd).
  simpl in Hnd. apply NoDup_cons in Hnd as [Hnot _].
  apply Forall_forall. intros l' Hl' Heq. apply Hnot.
  apply list_elem_of_fmap. exists l'. split; [|done].
  unfold pairOf. congruence.
Qed.



(** ** Further behaviour of [placeBooksOnShelf] and [placeOrder] *)





Lemma occurrences_zero b bs : occurrences b bs = 0 <-> b ∉ bs.
Proof.
  induction bs as [|x bs IH]; simpl.
  - split; [intros _; apply not_elem_of_nil | done].
  - rewrite occurrences_cons, not_elem_of_cons.
    pose proof (occurrences_nonneg b bs).
    destruct (decide (x = b)) as [->|Hx].
    + split; [lia | by intros [? _]].
    + rewrite IH. split; [by split; [congruence|] | by intros [_ ?]].
Qed.

Lemma totalCopies_insert_fresh (m : gmap string Z) b q :
  m !! b = None -> totalCopies (<[b := q]> m) = q + totalCopies m.
Proof.
  intros Hb. unfold totalCopies.
  rewrite map_fold_insert_L; [done| |done].
  intros. lia.
Qed.

Lemma totalCopies_insert (m : gmap string Z) b q :
  totalCopies (<[b := q]> m) = q + totalCopies m - default 0 (m !! b).
Proof.
  destruct (m !! b) as [v|] eqn:Hb; simpl.
  - rewrite <- (insert_delete_eq m).
    rewrite totalCopies_insert_fresh by apply lookup_delete_eq.
    rewrite <- (insert_delete_id m b v) at 2 by done.
    rewrite totalCopies_insert_fresh by apply lookup_delete_eq. lia.
  - rewrite totalCopies_insert_fresh by done. lia.
Qed.

Lemma totalCopies_foldl bs : forall acc : gmap string Z,
  totalCopies
    (foldl (fun order book => <[book := 1 + default 0 (order !! book)]> order)
           acc bs)
  = totalCopies acc + Z.of_nat (length bs).
Proof.
  induction bs as [|x bs IH]; intros acc; simpl; [lia|].
  rewrite IH, totalCopies_insert. lia.
Qed.

(** X9. For a request none of whose books is a property name of
    [Object.prototype], the tally of [placeOrder] loses nothing and
    invents nothing: its books are exactly the books of the request,
    every quantity is at least 1, and the quantities add up to the
    length of the request. *)
Theorem tally_total bs :
  Forall ordinary bs ->
  (forall b, is_Some (tally bs !! b) <-> b ∈ bs) /\
  (forall b q, tally bs !! b = Some q -> 1 <= q) /\
  totalCopies (tally bs) = Z.of_nat (length bs).
Proof.
  intros Hord. split; [|split].
  - intros b. rewrite (tally_lookup bs b Hord).
    destruct (decide (occurrences b bs = 0)) as [Hz|Hnz].
    + apply occurrences_zero in Hz. split; [by intros [? ?]|done].
    + split; [|eauto]. intros _.
      destruct (decide (b ∈ bs)) as [|Hnot]; [done|].
      by apply occurrences_zero in Hnot.
  - intros b q. rewrite (tally_lookup bs b Hord).
    pose proof (occurrences_nonneg b bs).
    destruct (decide (occurrences b bs = 0)); [done|].
    intros [= <-]. lia.
  - rewrite (tally_plain bs Hord), totalCopies_foldl. done.
Qed.

Lemma tally_total_witness :
  totalCopies (tally ["X"; "X"; "Y"]) = Z.of_nat (length ["X"; "X"; "Y"]).
Proof.
  refine (proj2 (proj2 (tally_total ["X"; "X"; "Y"] _))).
  repeat constructor.
Defined.

(** ** Invariants of the store under every helper *)

Lemma getBookInfo_state b w : (getBookInfo b w).1 = w.
Proof. reflexivity. Qed.

Lemma placeBooksOnShelf_orders b n s w :
  orders (placeBooksOnShelf b n s w).1 = orders w.
Proof.
  rewrite placeBooksOnShelf_eq. cbv zeta.
  destruct (n <? 0); [done|].
  by destruct (jsAdd (copiesOnShelf (stock w) b s) n <? 0).
Qed.

Lemma fulfilOrder_orders o lines w :
  orders (fulfilOrder o lines w).1 = orders w \/
  orders (fulfilOrder o lines w).1 = delete o (orders w).
Proof.
  rewrite fulfilOrder_eq.
  destruct (orders w !! o) as [order|]; [|by left].
  destruct (knownBooks order lines); simpl; [|by left].
  destruct (exactCounts order lines); simpl; [|by left].
  destruct (inStock (stock w) lines); simpl; [by right|by left].
Qed.

Lemma serve_nonNegative r w : nonNegative w -> nonNegative (serve r w).
Proof.
  intros Hw. destruct r as [b|b s n| |bs|o lines]; simpl; try done.
  - apply (perform_nonNegative (PlaceBooksOnShelf b n s) w Hw).
  - apply (perform_nonNegative (FulfilOrder o lines) w Hw).
Qed.

Lemma serve_wellFormedOrders r w :
  ordinaryRequest r -> wellFormedOrders w -> wellFormedOrders (serve r w).
Proof.
  intros Hr Hw. destruct r as [b|b s n| |bs|o lines]; simpl; try done.
  - unfold wellFormedOrders. by rewrite placeBooksOnShelf_orders.
  - intros o order b q. simpl. intros Ho Hb.
    apply lookup_insert_Some in Ho as [[_ <-]|[_ Ho]]; [|by eapply Hw].
    rewrite (tally_lookup bs b Hr) in Hb.
    pose proof (occurrences_nonneg b bs).
    destruct (decide (occurrences b bs = 0)); [done|].
    injection Hb as <-. lia.
  - unfold wellFormedOrders.
    destruct (fulfilOrder_orders o lines w) as [-> | ->]; [done|].
    intros o' order b q Ho. apply lookup_delete_Some in Ho as [_ Ho].
    by eapply Hw.
Qed.

(** X10. Whatever sequence of requests to the five helpers is served,
    the books placed in orders and named by fulfilment lines not being
    property names of [Object.prototype], from a store whose counts are
    not negative and whose orders ask for at least one copy of each of
    their books, the store it leaves is of the same kind: no helper,
    failing or not, leaves a negative count or an order with a quantity
    below 1. *)
Theorem serveAll_invariant rs w :
  Forall ordinaryRequest rs ->
  nonNegative w -> wellFormedOrders w ->
  nonNegative (serveAll rs w) /\ wellFormedOrders (serveAll rs w).
Proof.
  unfold serveAll. intros Hrs. revert w.
  induction Hrs as [|r rs Hr Hrs IH]; intros w Hn Ho; simpl; [done|].
  apply IH; [by apply serve_nonNegative | by apply serve_wellFormedOrders].
Qed.

Lemma serveAll_invariant_witness :
  let rs := [PostOrder ["X"; "X"; "Y"]; PutOnShelf "X" "A" 2;
             PutOnShelf "Y" "A" (-1); GetBookInfo "X";
             PutFulfil "0" [line "X" "A" 2]; ListOrders] in
  nonNegative (serveAll rs emptyData) /\
  wellFormedOrders (serveAll rs emptyData).
Proof.
  apply (serveAll_invariant
           [PostOrder ["X"; "X"; "Y"]; PutOnShelf "X" "A" 2;
            PutOnShelf "Y" "A" (-1); GetBookInfo "X";
            PutFulfil "0" [line "X" "A" 2]; ListOrders] emptyData).
  - repeat constructor.
  - intros k n Hk. unfold emptyData in Hk. cbn [stock] in Hk.
    by rewrite lookup_empty in Hk.
  - intros o order b q Ho. unfold emptyData in Ho. cbn [orders] in Ho.
    by rewrite lookup_empty in Ho.
Defined.

(** ** Placing and then fulfilling *)

Lemma exactCounts_nil order : exactCounts order [] = true <-> order = ∅.
Proof.
  rewrite exactCounts_true, map_empty. split.
  - intros H b. destruct (order !! b) as [q|] eqn:Hb; [|done].
    specialize (H b q Hb). unfold removedCounts in H. simpl in H.
    by rewrite lookup_empty in H.
  - intros H b q Hb. by rewrite H in Hb.
Qed.

(** X11. With no lines at all, [fulfilOrder] succeeds exactly on the
    empty order: an order for at least one book is never fulfilled by an
    empty request.  In particular the order that [placeOrder] stores for
    an empty list of books is fulfilled at once by an empty request, and
    the two calls together leave the stock and the orders as they
    found them. *)
Theorem fulfilOrder_no_lines :
  (forall w o order,
     orders w !! o = Some order ->
     (succeeds (fulfilOrder o []) w <-> order = ∅)) /\
  (forall w,
     exists w1 o w2,
       placeOrder [] w = (w1, Resolved o) /\
       fulfilOrder o [] w1 = (w2, Resolved tt) /\
       stock w2 = stock w /\ orders w2 = orders w).
Proof.
  split.
  - intros w o order Ho.
    rewrite (fulfilOrder_succeeds_iff _ _ _ _ Ho), exactCounts_nil.
    simpl. split; [by intros (_ & ? & _) | done].
  - intros w. pose proof (fresh_order_unused w) as Hfresh.
    eexists _, _, _. split; [apply placeOrder_eq|].
    split; [|split].
    + apply fulfilOrder_resolves with (order := ∅).
      * apply lookup_insert_eq.
      * constructor.
      * intros b q Hb. by rewrite lookup_empty in Hb.
      * constructor.
    + done.
    + cbn [committed orders]. by apply delete_insert_id.
Qed.

Lemma fulfilOrder_no_lines_witness :
  succeeds (fulfilOrder "o1" []) scenarioC <-> tally ["X"; "X"; "Y"] = ∅.
Proof.
  apply (proj1 fulfilOrder_no_lines scenarioC "o1" (tally ["X"; "X"; "Y"])).
  vm_compute. reflexivity.
Defined.




Lemma mentions_assoc_notin s (kvs : list (string * Z)) b :
  b ∉ kvs.*1 ->
  mentions b (map (fun '(b, q) => line b s q) kvs) = false.
Proof.
  induction kvs as [|[b' q'] kvs IH]; simpl; [done|].
  rewrite not_elem_of_cons. intros [Hne Hnot].
  rewrite IH by done. rewrite bool_decide_eq_false_2; [done|congruence].
Qed.

Lemma sumFor_assoc_in s (kvs : list (string * Z)) b q :
  NoDup kvs.*1 -> (b, q) ∈ kvs ->
  mentions b (map (fun '(b, q) => line b s q) kvs) = true /\
  sumFor b (map (fun '(b, q) => line b s q) kvs) = q.
Proof.
  induction kvs as [|[b' q'] kvs IH]; simpl.
  - intros _ Hin. by apply elem_of_nil in Hin.
  - rewrite NoDup_cons, elem_of_cons. intros [Hnot Hnd] [[= -> ->]|Hin].
    + rewrite bool_decide_eq_true_2 by done. split; [done|].
      rewrite decide_True by done.
      rewrite (sumFor_unmentioned b'); [lia|].
      by apply mentions_assoc_notin.
    + destruct (IH Hnd Hin) as [Hm Hs]. rewrite Hm, orb_true_r.
      split; [done|]. rewrite decide_False; [done|].
      intros ->. apply Hnot. apply list_elem_of_fmap. by exists (b, q).
Qed.

Lemma fromOneShelf_pairs s (order : gmap string Z) :
  NoDup (map pairOf (fromOneShelf s order)).
Proof.
  unfold fromOneShelf. rewrite map_map.
  assert (Heq : map (fun x : string * Z => pairOf (let '(b, q) := x in
                                                    line b s q))
                    (map_to_list order)
                = (fun b => (b, s)) <$> (map_to_list order).*1).
  { rewrite <- list_fmap_compose. apply map_ext. by intros [b q]. }
  rewrite Heq. apply NoDup_fmap_2_strong.
  - intros x y _ _. congruence.
  - apply NoDup_fst_map_to_list.
Qed.

(** X13. A stored order none of whose books is a property name of
    [Object.prototype], with quantities that are not negative, can be
    fulfilled from a single shelf that holds enough of each of its
    books, and at most 2^53 of each: with one line per book of the
    order, all naming that shelf and asking for the required quantity,
    [fulfilOrder] succeeds, and on that shelf the count of every book
    goes down by exactly the quantity the order requires (by nothing for
    a book that is not in the order). *)
Theorem fulfilOrder_from_one_shelf w o order s :
  orders w !! o = Some order ->
  (forall b q, order !! b = Some q ->
               ordinary b /\ 0 <= q /\
               q <= copiesOnShelf (stock w) b s /\
               copiesOnShelf (stock w) b s <= 2 ^ 53) ->
  exists w',
    fulfilOrder o (fromOneShelf s order) w = (w', Resolved tt) /\
    forall b, copiesOnShelf (stock w') b s =
              copiesOnShelf (stock w) b s - default 0 (order !! b).
Proof.
  intros Ho Hstock.
  assert (Hrun : fulfilOrder o (fromOneShelf s order) w =
                 (committed o (fromOneShelf s order) w, Resolved tt)).
  { apply fulfilOrder_resolves with (order := order); [done|..].
    - apply Forall_forall. intros l Hl.
      apply list_elem_of_fmap in Hl as ([b q] & -> & Hin).
      apply elem_of_map_to_list in Hin. simpl. eauto.
    - intros b q Hb. apply sumFor_assoc_in.
      + apply NoDup_fst_map_to_list.
      + by apply elem_of_map_to_list.
    - apply Forall_forall. intros l Hl.
      apply list_elem_of_fmap in Hl as ([b q] & -> & Hin).
      apply elem_of_map_to_list in Hin. simpl. by apply Hstock. }
  eexists. split; [exact Hrun|]. intros b.
  destruct (order !! b) as [q|] eqn:Hb; simpl.
  - assert (Hl : line b s q ∈ fromOneShelf s order).
    { apply list_elem_of_fmap. exists (b, q). split; [done|].
      by apply elem_of_map_to_list. }
    apply (copiesOnShelf_last _ _ _ _ (line b s q) Hrun).
    apply lastForPair_NoDup; [apply fromOneShelf_pairs | done].
  - cbn [committed stock]. rewrite foldl_writeLine_processed.
    unfold copiesOnShelf at 1. rewrite applyLines_untouched.
    + unfold copiesOnShelf. lia.
    + apply Forall_forall. intros l Hl.
      apply list_elem_of_fmap in Hl as ([b' q'] & -> & Hin).
      apply elem_of_map_to_list in Hin. simpl. congruence.
Qed.

Lemma fulfilOrder_from_one_shelf_witness :
  exists w',
    fulfilOrder "o1" (fromOneShelf "A" (tally ["X"; "X"; "Y"])) scenarioC
    = (w', Resolved tt) /\
    forall b, copiesOnShelf (stock w') b "A" =
              copiesOnShelf (stock scenarioC) b "A"
              - default 0 (tally ["X"; "X"; "Y"] !! b).
Proof.
  apply (fulfilOrder_from_one_shelf scenarioC "o1"
           (tally ["X"; "X"; "Y"]) "A").
  - vm_compute. reflexivity.
  - intros b q Hb.
    change (tally ["X"; "X"; "Y"])
      with (<["X" := 2]> {[ "Y" := 1 ]} : gmap string Z) in Hb.
    apply lookup_insert_Some in Hb as [[<- <-]|[_ Hb]].
    + vm_compute. repeat split; discriminate.
    + apply lookup_singleton_Some in Hb as [<- <-].
      vm_compute. repeat split; discriminate.
Defined.

(** ** The controllers *)

Lemma handle_rejected {A} (p : Promise A) status w w1 e :
  p w = (w1, Rejected e) -> handle status p w = (w1, ServerError 500).
Proof. intros H. unfold handle. by rewrite H. Qed.

(** X14. The controllers answer every rejection of their helper alike:
    [FulfilController.fulfilOrder] either reports success, the helper
    having succeeded, or throws the same server error with status 500
    whichever of the four checks failed, and then the stock and the
    orders are those before the request; a request for a missing order
    and one with a line whose book is neither in the order nor a
    property name of [Object.prototype] get the same reply.
    [WarehouseController.placeBooksOnShelf] answers a negative number
    with that reply too and leaves the store as it received it. *)
Theorem controllers_hide_errors :
  (forall order body w w' r,
     FulfilController.fulfilOrder order body w = (w', r) ->
     (r = Sent None tt /\ fulfilOrder order body w = (w', Resolved tt)) \/
     (r = ServerError 500 /\ fails (fulfilOrder order body) w /\
      stock w' = stock w /\ orders w' = orders w)) /\
  (forall order body w,
     orders w !! order = None ->
     (FulfilController.fulfilOrder order body w).2 = ServerError 500) /\
  (forall order books body w,
     orders w !! order = Some books ->
     Exists (fun l => ordinary (book l) /\ books !! book l = None) body ->
     (FulfilController.fulfilOrder order body w).2 = ServerError 500) /\
  (forall book shelf number w,
     number < 0 ->
     WarehouseController.placeBooksOnShelf book shelf number w
     = (w, ServerError 500)).
Proof.
  split; [|split; [|split]].
  - intros order body w w' r.
    unfold FulfilController.fulfilOrder, handle.
    destruct (fulfilOrder order body w) as [w1 [[]|e]] eqn:Hrun.
    + intros [= <- <-]. by left.
    + intros [= <- <-]. right. split; [done|]. split; [by exists w1, e|].
      apply (perform_rejected (FulfilOrder order body) w w1 e Hrun).
  - intros order body w Ho.
    unfold FulfilController.fulfilOrder, handle.
    by rewrite fulfilOrder_eq, Ho.
  - intros order books body w Ho Hk.
    unfold FulfilController.fulfilOrder, handle.
    rewrite fulfilOrder_eq, Ho.
    by rewrite (knownBooks_false books body Hk).
  - intros book shelf number w Hn.
    unfold WarehouseController.placeBooksOnShelf, handle.
    rewrite placeBooksOnShelf_eq. by rewrite (proj2 (Z.ltb_lt _ _) Hn).
Qed.

Lemma controllers_hide_errors_witness :
  (FulfilController.fulfilOrder "o2" [line "X" "A" 2] scenarioC).2
  = ServerError 500.
Proof.
  apply (proj1 (proj2 controllers_hide_errors) "o2" [line "X" "A" 2]
           scenarioC).
  vm_compute. reflexivity.
Defined.

(** ** The book catalogue *)

Lemma deleteBook_cases parse id db :
  (String.length id <> 24%nat /\
   Catalogue.deleteBook parse id db
   = (db, Catalogue.Failure Catalogue.invalid_id)) \/
  (String.length id = 24%nat /\
   (parse id = None \/ Catalogue.reachable db = false) /\
   Catalogue.deleteBook parse id db
   = (db, Catalogue.Failure Catalogue.server_error)) \/
  (String.length id = 24%nat /\ Catalogue.reachable db = true /\
   exists oid,
     parse id = Some oid /\
     ((Catalogue.docs db !! oid = None /\
       Catalogue.deleteBook parse id db
       = (db, Catalogue.Failure Catalogue.not_found)) \/
      (is_Some (Catalogue.docs db !! oid) /\
       Catalogue.deleteBook parse id db
       = ({| Catalogue.docs := delete oid (Catalogue.docs db);
             Catalogue.reachable := Catalogue.reachable db |},
          Catalogue.Success)))).
Proof.
  unfold Catalogue.deleteBook.
  destruct (Nat.eqb_spec (String.length id) 24) as [Hlen|Hlen]; simpl;
    [|by left].
  right. destruct (parse id) as [oid|] eqn:Hparse; [|left; auto].
  destruct (Catalogue.reachable db) eqn:Hr; [|left; auto].
  right. split; [done|]. split; [done|]. exists oid. split; [done|].
  destruct (Catalogue.docs db !! oid) as [doc|] eqn:Hdoc.
  - right. split; [by eexists|done].
  - left. done.
Qed.

(** X15. [deleteBook] is all or nothing.  It answers [invalid_id]
    exactly for an identifier whose length is not 24; every failure
    leaves the database as it was; a success means the parsed identifier
    had a document, which is now gone while every other document is
    untouched.  [BooksController.deleteBook] answers every failure, an
    invalid identifier and a server error included, with status 404. *)
Theorem deleteBook_effect parse id db db' r :
  Catalogue.deleteBook parse id db = (db', r) ->
  (r = Catalogue.Failure Catalogue.invalid_id <->
   String.length id <> 24%nat) /\
  (r <> Catalogue.Success -> db' = db) /\
  (r = Catalogue.Success ->
   exists oid,
     parse id = Some oid /\
     is_Some (Catalogue.docs db !! oid) /\
     Catalogue.docs db' !! oid = None /\
     forall o, o <> oid ->
               Catalogue.docs db' !! o = Catalogue.docs db !! o) /\
  Catalogue.controllerDeleteBook parse id db =
  (db', match r with
        | Catalogue.Success => Catalogue.Answer tt
        | Catalogue.Failure _ => Catalogue.BookNotFound 404
        end).
Proof.
  intros Hrun. unfold Catalogue.controllerDeleteBook. rewrite Hrun.
  destruct (deleteBook_cases parse id db)
    as [[Hlen H]|[(Hlen & _ & H)|(Hlen & Hr & oid & Hp & [[Hd H]|[Hd H]])]];
    rewrite H in Hrun; injection Hrun as <- <-.
  - split; [|split; [|split]]; done.
  - split; [split; [intros [=] | intros Hne; by destruct Hne]|].
    split; [done|]. split; [intros [=] | done].
  - split; [split; [intros [=] | intros Hne; by destruct Hne]|].
    split; [done|]. split; [intros [=] | done].
  - split; [split; [intros [=] | intros Hne; by destruct Hne]|].
    split; [intros Hne; by destruct Hne|]. split; [|done].
    intros _. exists oid. simpl.
    split; [done|]. split; [done|]. split; [apply lookup_delete_eq|].
    intros o Ho. by apply lookup_delete_ne.
Qed.

Lemma deleteBook_effect_witness :
  let r := (Catalogue.deleteBook Catalogue.strictHex "invalid-id"
              Catalogue.sampleDb).2 in
  let db' := (Catalogue.deleteBook Catalogue.strictHex "invalid-id"
                Catalogue.sampleDb).1 in
  (r = Catalogue.Failure Catalogue.invalid_id <->
   String.length "invalid-id" <> 24%nat) /\
  (r <> Catalogue.Success -> db' = Catalogue.sampleDb) /\
  (r = Catalogue.Success ->
   exists oid,
     Catalogue.strictHex "invalid-id" = Some oid /\
     is_Some (Catalogue.docs Catalogue.sampleDb !! oid) /\
     Catalogue.docs db' !! oid = None /\
     forall o, o <> oid ->
               Catalogue.docs db' !! o
               = Catalogue.docs Catalogue.sampleDb !! o) /\
  Catalogue.controllerDeleteBook Catalogue.strictHex "invalid-id"
    Catalogue.sampleDb =
  (db', match r with
        | Catalogue.Success => Catalogue.Answer tt
        | Catalogue.Failure _ => Catalogue.BookNotFound 404
        end).
Proof.
  apply (deleteBook_effect Catalogue.strictHex "invalid-id"
           Catalogue.sampleDb).
  vm_compute. reflexivity.
Defined.

(** X16. Deleting is final: once [deleteBook] has succeeded for an
    identifier, a second [deleteBook] for it answers [not_found] and
    changes nothing, and [getBook], which before the deletion returned
    the book under the identifier asked for, now returns [false], which
    [BooksController.getBook] answers with status 404 (for an identifier
    that [trim] leaves alone). *)
Theorem deleteBook_final parse id db db' :
  Catalogue.deleteBook parse id db = (db', Catalogue.Success) ->
  Catalogue.deleteBook parse id db'
  = (db', Catalogue.Failure Catalogue.not_found) /\
  forall trim, trim id = id ->
    (exists b, Catalogue.getBook trim parse id db
               = Catalogue.Returns (Some b) /\
               Catalogue.id b = Some id) /\
    Catalogue.getBook trim parse id db' = Catalogue.Returns None /\
    Catalogue.controllerGetBook trim parse id db'
    = Catalogue.BookNotFound 404.
Proof.
  intros Hrun.
  destruct (deleteBook_cases parse id db)
    as [[Hlen H]|[(Hlen & _ & H)|(Hlen & Hr & oid & Hp & [[Hd H]|[Hd H]])]];
    rewrite H in Hrun; try discriminate.
  injection Hrun as <-. apply Nat.eqb_eq in Hlen. split.
  - unfold Catalogue.deleteBook. rewrite Hlen, Hp. simpl.
    by rewrite Hr, lookup_delete_eq.
  - intros trim Htrim.
    unfold Catalogue.controllerGetBook, Catalogue.getBook.
    rewrite Hlen, Htrim, Hp. simpl. rewrite Hr, lookup_delete_eq.
    split; [|done]. destruct Hd as [doc ->]. eauto.
Qed.

Lemma deleteBook_final_witness :
  let db' := (Catalogue.deleteBook Catalogue.strictHex Catalogue.sampleId
                Catalogue.sampleDb).1 in
  Catalogue.deleteBook Catalogue.strictHex Catalogue.sampleId db'
  = (db', Catalogue.Failure Catalogue.not_found) /\
  forall trim, trim Catalogue.sampleId = Catalogue.sampleId ->
    (exists b, Catalogue.getBook trim Catalogue.strictHex Catalogue.sampleId
                 Catalogue.sampleDb
               = Catalogue.Returns (Some b) /\
               Catalogue.id b = Some Catalogue.sampleId) /\
    Catalogue.getBook trim Catalogue.strictHex Catalogue.sampleId db'
    = Catalogue.Returns None /\
    Catalogue.controllerGetBook trim Catalogue.strictHex Catalogue.sampleId
      db'
    = Catalogue.BookNotFound 404.
Proof.
  apply (deleteBook_final Catalogue.strictHex Catalogue.sampleId
           Catalogue.sampleDb).
  vm_compute. reflexivity.
Defined.

(** ** The database accessor *)

Lemma getClient_cached accepts rt c :
  Mongo._client rt = Some c -> Mongo.getClient accepts rt = (rt, Some c).
Proof. intros H. unfold Mongo.getClient. by rewrite H. Qed.

Lemma getClient_built accepts rt rt1 c :
  Mongo.getClient accepts rt = (rt1, Some c) ->
  Mongo._client rt1 = Some c /\ Mongo.MONGO_URI rt1 = Mongo.MONGO_URI rt.
Proof.
  unfold Mongo.getClient. destruct (Mongo._client rt) as [c0|] eqn:Hc.
  - by intros [= <- <-].
  - destruct (accepts (Mongo.getUri rt)); [|done]. by intros [= <- <-].
Qed.

(** X17. [getClient] builds its client once.  When a call has returned a
    client, every later call returns the very same client and builds
    none, even when [global.MONGO_URI] has been assigned in between, be
    it to a string [new MongoClient] would refuse: a client built by the
    call keeps the URI read at that moment, the string in [MONGO_URI] or
    [mongodb://mongo] when the global is undefined or null.  A call that
    throws caches nothing and builds nothing. *)
Theorem getClient_singleton accepts rt rt1 :
  (forall c,
     Mongo.getClient accepts rt = (rt1, Some c) ->
     (forall v accepts',
        Mongo.getClient accepts' (Mongo.setMongoUri v rt1)
        = (Mongo.setMongoUri v rt1, Some c)) /\
     (Mongo._client rt = None ->
      Mongo.clientUri c = Mongo.getUri rt /\
      Mongo.built rt1 = S (Mongo.built rt))) /\
  (Mongo.getClient accepts rt = (rt1, None) ->
   rt1 = rt /\ Mongo._client rt = None /\
   accepts (Mongo.getUri rt) = false).
Proof.
  split.
  - intros c Hrun. split.
    + intros v accepts'. apply getClient_cached. simpl.
      by apply (getClient_built accepts rt rt1 c).
    + intros Hnone. unfold Mongo.getClient in Hrun.
      rewrite Hnone in Hrun.
      destruct (accepts (Mongo.getUri rt)); [|done].
      by injection Hrun as <- <-.
  - unfold Mongo.getClient. destruct (Mongo._client rt); [done|].
    destruct (accepts (Mongo.getUri rt)); [done|]. by intros [= <-].
Qed.

Lemma getClient_singleton_witness :
  let rt := Mongo.freshRuntime (Mongo.Str "mongodb://localhost") in
  let rt1 := (Mongo.getClient (fun _ => true) rt).1 in
  let c := {| Mongo.clientUri := "mongodb://localhost";
              Mongo.serial := 0 |} in
  (forall v accepts',
     Mongo.getClient accepts' (Mongo.setMongoUri v rt1)
     = (Mongo.setMongoUri v rt1, Some c)) /\
  (Mongo._client rt = None ->
   Mongo.clientUri c = Mongo.getUri rt /\
   Mongo.built rt1 = S (Mongo.built rt)).
Proof.
  apply (proj1 (getClient_singleton (fun _ => true)
                  (Mongo.freshRuntime (Mongo.Str "mongodb://localhost"))
                  (Mongo.getClient (fun _ => true)
                     (Mongo.freshRuntime
                        (Mongo.Str "mongodb://localhost"))).1)).
  reflexivity.
Defined.

Lemma not_a_numeral_go x : forall s,
  s <> Mongo.DATABASE_NAME -> pretty_N_go x s <> Mongo.DATABASE_NAME.
Proof.
  induction (N.lt_wf_0 x) as [x _ IH]. intros s Hs.
  destruct (decide (x = 0%N)) as [->|Hx]; [by rewrite pretty_N_go_0|].
  rewrite pretty_N_go_step by lia. apply IH.
  - apply N.div_lt; lia.
  - unfold pretty_N_char, Mongo.DATABASE_NAME.
    by repeat case_match.
Qed.

Lemma not_a_numeral (x : N) : pretty x <> Mongo.DATABASE_NAME.
Proof.
  unfold pretty, pretty_N. destruct (decide (x = 0%N)); [done|].
  by apply not_a_numeral_go.
Qed.

Lemma numeral_nonempty_go x : forall s,
  s <> "" -> pretty_N_go x s <> "".
Proof.
  induction (N.lt_wf_0 x) as [x _ IH]. intros s Hs.
  destruct (decide (x = 0%N)) as [->|Hx]; [by rewrite pretty_N_go_0|].
  rewrite pretty_N_go_step by lia. apply IH; [|done].
  apply N.div_lt; lia.
Qed.

Lemma numeral_nonempty (x : N) : pretty x <> "".
Proof.
  unfold pretty, pretty_N. destruct (decide (x = 0%N)); [done|].
  rewrite pretty_N_go_step by lia. by apply numeral_nonempty_go.
Qed.

(** X18. The test of [db.ts], Can Setup Test DB, holds for every draw,
    for a driver whose [db] names the database as asked whenever the
    name asked is not empty and it does not throw: whenever
    [getBookDatabase] returns, with [global.MONGO_URI] defined and no
    name given, the database it opens is named by a decimal numeral and
    so is never the production database [mcmasterful-books]; with the
    global undefined it is the production database, and a name given by
    the caller that is not empty is used as it is.  The collection is
    [mcmasterful-books] of that database in every case. *)
Theorem getBookDatabase_name accepts named random dbName rt rt1 db :
  (forall name actual,
     named name = Some actual -> name <> "" -> actual = name) ->
  Mongo.getBookDatabase accepts named random dbName rt = (rt1, Some db) ->
  (dbName = None -> Mongo.isTestEnvironment rt = true ->
   Mongo.databaseName (Mongo.database db) = pretty random /\
   Mongo.databaseName (Mongo.database db) <> Mongo.DATABASE_NAME) /\
  (dbName = None -> Mongo.isTestEnvironment rt = false ->
   Mongo.databaseName (Mongo.database db) = Mongo.DATABASE_NAME) /\
  (forall given, dbName = Some given -> given <> "" ->
                 Mongo.databaseName (Mongo.database db) = given) /\
  Mongo.collectionName (Mongo.books db) = Mongo.DATABASE_NAME /\
  Mongo.collectionDb (Mongo.books db) = Mongo.database db.
Proof.
  intros Hnamed. unfold Mongo.getBookDatabase.
  destruct (Mongo.getClient accepts rt) as [rt' [c|]] eqn:Hc; [|done].
  apply getClient_built in Hc as [_ Huri].
  assert (Htest : Mongo.isTestEnvironment rt' = Mongo.isTestEnvironment rt)
    by (unfold Mongo.isTestEnvironment; by rewrite Huri).
  rewrite Htest. cbv zeta.
  match goal with
  | |- match named ?asked with _ => _ end = _ -> _ =>
      destruct (named asked) as [actual|] eqn:Hopen; [|done]
  end.
  intros [= <- <-]. simpl. split; [|split; [|split; [|done]]].
  - intros -> Ht. rewrite Ht in Hopen.
    rewrite (Hnamed _ _ Hopen (numeral_nonempty random)).
    split; [done | apply not_a_numeral].
  - intros -> Ht. rewrite Ht in Hopen. by apply (Hnamed _ _ Hopen).
  - intros given -> Hne. by apply (Hnamed _ _ Hopen).
Qed.

Lemma getBookDatabase_name_witness :
  Mongo.databaseName
    (Mongo.database
       {| Mongo.database :=
            {| Mongo.dbClient := {| Mongo.clientUri := "mongodb://localhost";
                                    Mongo.serial := 0 |};
               Mongo.databaseName := "4711" |};
          Mongo.books :=
            {| Mongo.collectionDb :=
                 {| Mongo.dbClient :=
                      {| Mongo.clientUri := "mongodb://localhost";
                         Mongo.serial := 0 |};
                    Mongo.databaseName := "4711" |};
               Mongo.collectionName := Mongo.DATABASE_NAME |} |})
  = pretty 4711%N /\
  Mongo.databaseName
    (Mongo.database
       {| Mongo.database :=
            {| Mongo.dbClient := {| Mongo.clientUri := "mongodb://localhost";
                                    Mongo.serial := 0 |};
               Mongo.databaseName := "4711" |};
          Mongo.books :=
            {| Mongo.collectionDb :=
                 {| Mongo.dbClient :=
                      {| Mongo.clientUri := "mongodb://localhost";
                         Mongo.serial := 0 |};
                    Mongo.databaseName := "4711" |};
               Mongo.collectionName := Mongo.DATABASE_NAME |} |})
  <> Mongo.DATABASE_NAME.
Proof.
  apply (getBookDatabase_name (fun _ => true) Mongo.lenientDb 4711 None
           (Mongo.freshRuntime (Mongo.Str "mongodb://localhost"))
           (Mongo.getBookDatabase (fun _ => true) Mongo.lenientDb 4711 None
              (Mongo.freshRuntime (Mongo.Str "mongodb://localhost"))).1).
  - intros name actual. unfold Mongo.lenientDb.
    destruct (decide (name = "")); [done|]. by intros [= <-].
  - vm_compute. reflexivity.
  - reflexivity.
  - reflexivity.
Defined.
